(** * Job Cracker: the generation pipeline of the study-kit app

    A shallow embedding of [types.ts], [services/geminiService.ts] and the
    [App] component (state, handlers and the conditions under which the
    rendered controls accept an event), followed by the properties of the
    orchestration core.

    Modelling conventions.
    - React state is the record the updaters act on.  A functional updater
      [setState(prev => ...)] reads the state current when it is applied; a
      handler that mentions [state] directly reads the snapshot of the
      render in which the handler was created.  Between two events the
      component has re-rendered, so a handler starts with the current
      state as snapshot, but the part of an [async] handler that runs
      after an [await] still holds the snapshot taken at its start.
    - An [await] splits a handler in two: the part before it registers a
      pending continuation (with the values its closure captured), the
      part after it runs when the environment settles the promise.
    - The language-model service is the environment.  For a free-text
      request it supplies the outcome of [ai.models.generateContent]; for a
      JSON request it supplies the outcome of [generateContent] followed
      by [parseJSONSafely] (the decoded payload, or the exception either
      of them throws).  Building the client ([getAI]) is taken to succeed.
    - [alert] and the calls of the service functions are logged in the
      world so that statements can speak about them.
    - [handleDownloadKit] and [renderMarkdown] read the state and never
      write it; they are left out. *)

From stdpp Require Import base option list gmap strings.
From Stdlib Require Import Ascii ZArith Lia Permutation.


(** ** JavaScript values used by the code *)

(** A thrown value, seen through [error?.message]. *)
Record JsError := { message : option string }.

(** A settled promise (or the outcome of a [try] body). *)
Inductive Settled (A : Type) :=
| Fulfilled (a : A)
| Rejected (e : JsError).
Arguments Fulfilled {A} a.
Arguments Rejected {A} e.

(** Truthiness of [string | null | undefined]. *)
Definition truthy (o : option string) : bool :=
  match o with
  | Some s => negb (String.eqb s "")
  | None => false
  end.

(** [o || d] for such a value. *)
Definition js_or (o : option string) (d : string) : string :=
  match o with
  | Some s => if String.eqb s "" then d else s
  | None => d
  end.

(** [xs || []] for an optional array (an array is always truthy). *)
Definition or_nil {A} (o : option (list A)) : list A :=
  match o with
  | Some l => l
  | None => []
  end.

(** [s.substring(0, n)]. *)
Definition substring0 (n : nat) (s : string) : string := String.substring 0 n s.

(** [xs.join(sep)]. *)
Definition join (sep : string) (xs : list string) : string := String.concat sep xs.

(** ** types.ts *)

Inductive Subject := BANGLA | ENGLISH | MATH | GK | UNKNOWN.

Inductive OutputLanguage := BN | EN.

Record ProcessingResult := {
  ocrText : string;
  subject : Subject
}.

(** The keys of [options], also the type of [correctAnswer]. *)
Inductive OptionKey := KeyA | KeyB | KeyC | KeyD.

Definition key_string (k : OptionKey) : string :=
  match k with
  | KeyA => "A"
  | KeyB => "B"
  | KeyC => "C"
  | KeyD => "D"
  end.

Record MCQOptions := {
  optA : string;
  optB : string;
  optC : string;
  optD : string
}.

Record MCQQuestion := {
  q_id : Z;
  question : string;
  options : MCQOptions;
  correctAnswer : OptionKey;
  briefExplanation : string;
  sourceTag : string;
  covers : list string
}.

Record Flashcard := {
  card_id : Z;
  card_question : string
}.

Record CoverageReport := {
  usedFactsCount : Z;
  unusedFactsCount : Z;
  unusedFactsPreview : list string
}.

Record MCQBatch := {
  batchNumber : nat;
  questions : list MCQQuestion;
  coverageReport : CoverageReport
}.

Record MasterNote := {
  layer1 : string;
  layer2 : string;
  layer3 : string
}.

Inductive Tab := TabMaster | TabSummary | TabPractice | TabFlashcards | TabMistakes.

(** [ExtendedAppState]: [AppState] plus the [error] slot. *)
Record AppState := {
  images : list string;
  processing : bool;
  ocrResult : option ProcessingResult;
  masterNote : option MasterNote;
  summary : option string;
  mcqBatches : list MCQBatch;
  flashcards : list Flashcard;
  language : OutputLanguage;
  activeTab : Tab;
  currentQuestionIndex : nat;
  userAnswers : gmap Z string;
  examFinished : bool;
  error : option string
}.

(** ** services/geminiService.ts *)

Module GeminiService.

(** What [generateContent] resolves with: [response.text] may be absent. *)
Record GenerateContentResponse := { text : option string }.

(** Decoded payload of the extraction request. *)
Record OcrData := {
  data_ocrText : option string;
  data_subject : option Subject
}.

(** Decoded payload of the MCQ request; [practice] is the optional
    wrapper the code looks through. *)
Record McqRoot := {
  root_questions : option (list MCQQuestion);
  root_endOfBatch_coverageReport : option CoverageReport;
  root_coverageReport : option CoverageReport
}.

Record McqData := {
  practice : option McqRoot;
  top : McqRoot
}.

Record McqResult := {
  res_questions : list MCQQuestion;
  res_coverageReport : CoverageReport
}.

Record Clarification := {
  definition : string;
  fullExplanation : string
}.

Definition extractOCRAndSubject (body : Settled OcrData) : Settled ProcessingResult :=
  match body with
  | Fulfilled data =>
      Fulfilled {| ocrText := js_or (data_ocrText data) "";
                   subject := default UNKNOWN (data_subject data) |}
  | Rejected e => Rejected e
  end.

Definition clarifyText (body : Settled Clarification) : Settled Clarification :=
  match body with
  | Fulfilled data => Fulfilled data
  | Rejected e => Rejected e
  end.

Definition generateMasterNote (body : Settled MasterNote) : Settled MasterNote :=
  match body with
  | Fulfilled data => Fulfilled data
  | Rejected e => Rejected e
  end.

Definition generateMoreBonus (call : Settled GenerateContentResponse) : Settled string :=
  match call with
  | Fulfilled response => Fulfilled (js_or (text response) "")
  | Rejected e => Rejected e
  end.

(** The [catch] of [generateSummary] returns a string instead of
    rethrowing. *)
Definition generateSummary (call : Settled GenerateContentResponse) : Settled string :=
  match call with
  | Fulfilled response => Fulfilled (js_or (text response) "")
  | Rejected _ => Fulfilled "Summary generation failed."
  end.

Definition defaultCoverageReport : CoverageReport :=
  {| usedFactsCount := 0; unusedFactsCount := 0; unusedFactsPreview := [] |}.

Definition generateMCQBatch (body : Settled McqData) : Settled McqResult :=
  match body with
  | Fulfilled data =>
      let root := default (top data) (practice data) in
      Fulfilled
        {| res_questions := or_nil (root_questions root);
           res_coverageReport :=
             match root_endOfBatch_coverageReport root with
             | Some r => r
             | None => default defaultCoverageReport (root_coverageReport root)
             end |}
  | Rejected e => Rejected e
  end.

(** The [catch] of [generateFlashcards] returns the empty list. *)
Definition generateFlashcards (body : Settled (option (list Flashcard))) : Settled (list Flashcard) :=
  match body with
  | Fulfilled cards => Fulfilled (or_nil cards)
  | Rejected _ => Fulfilled []
  end.

End GeminiService.

(** ** App state around [AppState] *)

Module Loading.
Record LoadingStates := {
  ocr : bool;
  notes : bool;
  summary : bool;
  practice : bool;
  flashcards : bool;
  clarification : bool;
  moreBonus : bool;
  morePractice : bool
}.

Definition set_ocr v ls :=
  {| ocr := v; notes := notes ls; summary := summary ls; practice := practice ls;
     flashcards := flashcards ls; clarification := clarification ls;
     moreBonus := moreBonus ls; morePractice := morePractice ls |}.
Definition set_notes v ls :=
  {| ocr := ocr ls; notes := v; summary := summary ls; practice := practice ls;
     flashcards := flashcards ls; clarification := clarification ls;
     moreBonus := moreBonus ls; morePractice := morePractice ls |}.
Definition set_summary v ls :=
  {| ocr := ocr ls; notes := notes ls; summary := v; practice := practice ls;
     flashcards := flashcards ls; clarification := clarification ls;
     moreBonus := moreBonus ls; morePractice := morePractice ls |}.
Definition set_practice v ls :=
  {| ocr := ocr ls; notes := notes ls; summary := summary ls; practice := v;
     flashcards := flashcards ls; clarification := clarification ls;
     moreBonus := moreBonus ls; morePractice := morePractice ls |}.
Definition set_flashcards v ls :=
  {| ocr := ocr ls; notes := notes ls; summary := summary ls; practice := practice ls;
     flashcards := v; clarification := clarification ls;
     moreBonus := moreBonus ls; morePractice := morePractice ls |}.
Definition set_clarification v ls :=
  {| ocr := ocr ls; notes := notes ls; summary := summary ls; practice := practice ls;
     flashcards := flashcards ls; clarification := v;
     moreBonus := moreBonus ls; morePractice := morePractice ls |}.
Definition set_moreBonus v ls :=
  {| ocr := ocr ls; notes := notes ls; summary := summary ls; practice := practice ls;
     flashcards := flashcards ls; clarification := clarification ls;
     moreBonus := v; morePractice := morePractice ls |}.
Definition set_morePractice v ls :=
  {| ocr := ocr ls; notes := notes ls; summary := summary ls; practice := practice ls;
     flashcards := flashcards ls; clarification := clarification ls;
     moreBonus := moreBonus ls; morePractice := v |}.

(** The literal of the initial [useState] and of the [catch] of
    [handleGenerate]. *)
Definition allClear : LoadingStates :=
  {| ocr := false; notes := false; summary := false; practice := false;
     flashcards := false; clarification := false; moreBonus := false;
     morePractice := false |}.

(** The literal [handleGenerate] installs when a run starts. *)
Definition runStarted : LoadingStates :=
  {| ocr := true; notes := true; summary := true; practice := true;
     flashcards := true; clarification := false; moreBonus := false;
     morePractice := false |}.
End Loading.

(** Spread-and-override on [AppState], one function per overridden field. *)
Definition set_images v (s : AppState) : AppState :=
  {| images := v; processing := processing s; ocrResult := ocrResult s;
     masterNote := masterNote s; summary := summary s; mcqBatches := mcqBatches s;
     flashcards := flashcards s; language := language s; activeTab := activeTab s;
     currentQuestionIndex := currentQuestionIndex s; userAnswers := userAnswers s;
     examFinished := examFinished s; error := error s |}.
Definition set_processing v (s : AppState) : AppState :=
  {| images := images s; processing := v; ocrResult := ocrResult s;
     masterNote := masterNote s; summary := summary s; mcqBatches := mcqBatches s;
     flashcards := flashcards s; language := language s; activeTab := activeTab s;
     currentQuestionIndex := currentQuestionIndex s; userAnswers := userAnswers s;
     examFinished := examFinished s; error := error s |}.
Definition set_ocrResult v (s : AppState) : AppState :=
  {| images := images s; processing := processing s; ocrResult := v;
     masterNote := masterNote s; summary := summary s; mcqBatches := mcqBatches s;
     flashcards := flashcards s; language := language s; activeTab := activeTab s;
     currentQuestionIndex := currentQuestionIndex s; userAnswers := userAnswers s;
     examFinished := examFinished s; error := error s |}.
Definition set_masterNote v (s : AppState) : AppState :=
  {| images := images s; processing := processing s; ocrResult := ocrResult s;
     masterNote := v; summary := summary s; mcqBatches := mcqBatches s;
     flashcards := flashcards s; language := language s; activeTab := activeTab s;
     currentQuestionIndex := currentQuestionIndex s; userAnswers := userAnswers s;
     examFinished := examFinished s; error := error s |}.
Definition set_summary v (s : AppState) : AppState :=
  {| images := images s; processing := processing s; ocrResult := ocrResult s;
     masterNote := masterNote s; summary := v; mcqBatches := mcqBatches s;
     flashcards := flashcards s; language := language s; activeTab := activeTab s;
     currentQuestionIndex := currentQuestionIndex s; userAnswers := userAnswers s;
     examFinished := examFinished s; error := error s |}.
Definition set_mcqBatches v (s : AppState) : AppState :=
  {| images := images s; processing := processing s; ocrResult := ocrResult s;
     masterNote := masterNote s; summary := summary s; mcqBatches := v;
     flashcards := flashcards s; language := language s; activeTab := activeTab s;
     currentQuestionIndex := currentQuestionIndex s; userAnswers := userAnswers s;
     examFinished := examFinished s; error := error s |}.
Definition set_flashcards v (s : AppState) : AppState :=
  {| images := images s; processing := processing s; ocrResult := ocrResult s;
     masterNote := masterNote s; summary := summary s; mcqBatches := mcqBatches s;
     flashcards := v; language := language s; activeTab := activeTab s;
     currentQuestionIndex := currentQuestionIndex s; userAnswers := userAnswers s;
     examFinished := examFinished s; error := error s |}.
Definition set_language v (s : AppState) : AppState :=
  {| images := images s; processing := processing s; ocrResult := ocrResult s;
     masterNote := masterNote s; summary := summary s; mcqBatches := mcqBatches s;
     flashcards := flashcards s; language := v; activeTab := activeTab s;
     currentQuestionIndex := currentQuestionIndex s; userAnswers := userAnswers s;
     examFinished := examFinished s; error := error s |}.
Definition set_activeTab v (s : AppState) : AppState :=
  {| images := images s; processing := processing s; ocrResult := ocrResult s;
     masterNote := masterNote s; summary := summary s; mcqBatches := mcqBatches s;
     flashcards := flashcards s; language := language s; activeTab := v;
     currentQuestionIndex := currentQuestionIndex s; userAnswers := userAnswers s;
     examFinished := examFinished s; error := error s |}.
Definition set_currentQuestionIndex v (s : AppState) : AppState :=
  {| images := images s; processing := processing s; ocrResult := ocrResult s;
     masterNote := masterNote s; summary := summary s; mcqBatches := mcqBatches s;
     flashcards := flashcards s; language := language s; activeTab := activeTab s;
     currentQuestionIndex := v; userAnswers := userAnswers s;
     examFinished := examFinished s; error := error s |}.
Definition set_userAnswers v (s : AppState) : AppState :=
  {| images := images s; processing := processing s; ocrResult := ocrResult s;
     masterNote := masterNote s; summary := summary s; mcqBatches := mcqBatches s;
     flashcards := flashcards s; language := language s; activeTab := activeTab s;
     currentQuestionIndex := currentQuestionIndex s; userAnswers := v;
     examFinished := examFinished s; error := error s |}.
Definition set_examFinished v (s : AppState) : AppState :=
  {| images := images s; processing := processing s; ocrResult := ocrResult s;
     masterNote := masterNote s; summary := summary s; mcqBatches := mcqBatches s;
     flashcards := flashcards s; language := language s; activeTab := activeTab s;
     currentQuestionIndex := currentQuestionIndex s; userAnswers := userAnswers s;
     examFinished := v; error := error s |}.
Definition set_error v (s : AppState) : AppState :=
  {| images := images s; processing := processing s; ocrResult := ocrResult s;
     masterNote := masterNote s; summary := summary s; mcqBatches := mcqBatches s;
     flashcards := flashcards s; language := language s; activeTab := activeTab s;
     currentQuestionIndex := currentQuestionIndex s; userAnswers := userAnswers s;
     examFinished := examFinished s; error := v |}.

(** A picked file, with what [fileToBase64] settles to for it. *)
Record File := {
  fileName : string;
  readResult : Settled string
}.

Record Selection := {
  sel_text : string;
  sel_x : Z;
  sel_y : Z;
  fullSentence : string
}.

(** A call of a function of [geminiService.ts], with its arguments. *)
Inductive Call :=
| CallExtract (base64Images : list string)
| CallClarify (markedText contextSentence : string) (lang : OutputLanguage)
| CallMasterNote (text : string) (subj : Subject) (lang : OutputLanguage)
| CallMoreBonus (text existingBonus : string) (subj : Subject) (lang : OutputLanguage)
| CallSummary (text layer1Text : string) (lang : OutputLanguage)
| CallMCQBatch (text : string) (lang : OutputLanguage) (batchNum : nat) (prevContext : string)
| CallFlashcards (text : string) (lang : OutputLanguage).

(** The four calls [handleGenerate] fans out after the extraction. *)
Definition is_derivation_call (c : Call) : bool :=
  match c with
  | CallMasterNote _ _ _ | CallSummary _ _ _ | CallMCQBatch _ _ _ _ | CallFlashcards _ _ => true
  | _ => false
  end.

(** A handler suspended at its [await] (or a [.then/.catch] chain waiting
    for its promise), with what the closure uses afterwards. *)
Inductive Pending :=
| AwaitClarify
| AwaitMoreBonus
| AwaitMoreMCQs (snapshot : AppState) (nextBatchNum : nat)
| AwaitFiles (filesToProcess : list File)
| AwaitExtract (snapshot : AppState)
| AwaitMasterNote
| AwaitSummary
| AwaitMCQBatch
| AwaitFlashcards.

(** The component instance together with the observable effects. *)
Record World := {
  state : AppState;
  loadingStates : Loading.LoadingStates;
  selection : option Selection;
  clarification : option GeminiService.Clarification;
  activeBatchIndex : nat;
  pending : list Pending;
  alerts : list string;
  calls : list Call
}.

Definition setState (f : AppState → AppState) (w : World) : World :=
  {| state := f (state w); loadingStates := loadingStates w; selection := selection w;
     clarification := clarification w; activeBatchIndex := activeBatchIndex w;
     pending := pending w; alerts := alerts w; calls := calls w |}.
Definition setLoadingStates (f : Loading.LoadingStates → Loading.LoadingStates) (w : World) : World :=
  {| state := state w; loadingStates := f (loadingStates w); selection := selection w;
     clarification := clarification w; activeBatchIndex := activeBatchIndex w;
     pending := pending w; alerts := alerts w; calls := calls w |}.
Definition setSelection (v : option Selection) (w : World) : World :=
  {| state := state w; loadingStates := loadingStates w; selection := v;
     clarification := clarification w; activeBatchIndex := activeBatchIndex w;
     pending := pending w; alerts := alerts w; calls := calls w |}.
Definition setClarification (v : option GeminiService.Clarification) (w : World) : World :=
  {| state := state w; loadingStates := loadingStates w; selection := selection w;
     clarification := v; activeBatchIndex := activeBatchIndex w;
     pending := pending w; alerts := alerts w; calls := calls w |}.
Definition setActiveBatchIndex (v : nat) (w : World) : World :=
  {| state := state w; loadingStates := loadingStates w; selection := selection w;
     clarification := clarification w; activeBatchIndex := v;
     pending := pending w; alerts := alerts w; calls := calls w |}.
Definition set_pending (v : list Pending) (w : World) : World :=
  {| state := state w; loadingStates := loadingStates w; selection := selection w;
     clarification := clarification w; activeBatchIndex := activeBatchIndex w;
     pending := v; alerts := alerts w; calls := calls w |}.
Definition alert (msg : string) (w : World) : World :=
  {| state := state w; loadingStates := loadingStates w; selection := selection w;
     clarification := clarification w; activeBatchIndex := activeBatchIndex w;
     pending := pending w; alerts := alerts w ++ [msg]; calls := calls w |}.
Definition call (c : Call) (w : World) : World :=
  {| state := state w; loadingStates := loadingStates w; selection := selection w;
     clarification := clarification w; activeBatchIndex := activeBatchIndex w;
     pending := pending w; alerts := alerts w; calls := calls w ++ [c] |}.
Definition await (p : Pending) (w : World) : World :=
  set_pending (pending w ++ [p]) w.

(** The arguments of [useState] in [App]. *)
Definition initialState : AppState :=
  {| images := []; processing := false; ocrResult := None; masterNote := None;
     summary := None; mcqBatches := []; flashcards := []; language := BN;
     activeTab := TabMaster; currentQuestionIndex := 0; userAnswers := ∅;
     examFinished := false; error := None |}.

Definition initialWorld : World :=
  {| state := initialState; loadingStates := Loading.allClear; selection := None;
     clarification := None; activeBatchIndex := 0; pending := []; alerts := [];
     calls := [] |}.

(** ** The handlers of [App] *)

Module App.
Import GeminiService.

(** The line feed of the JavaScript literal [\n]. *)
Definition nl : string := String "010"%char "".

(** [files.slice(0, end)]: a negative [end] counts from the end of the
    array. *)
Definition slice0 {A} (stop : Z) (l : list A) : list A :=
  if (stop <? 0)%Z
  then take (Z.to_nat (Z.max 0 (Z.of_nat (length l) + stop))) l
  else take (Z.to_nat stop) l.

(** [Promise.all] over already settled promises. *)
Fixpoint promiseAll {A} (ps : list (Settled A)) : Settled (list A) :=
  match ps with
  | [] => Fulfilled []
  | Fulfilled a :: rest =>
      match promiseAll rest with
      | Fulfilled l => Fulfilled (a :: l)
      | Rejected e => Rejected e
      end
  | Rejected e :: _ => Rejected e
  end.

(** *** [handleMouseUp]

    [selectedText] is the trimmed selection; [anchorText] is
    [parentElement?.innerText || ''] when the selection object has an
    anchor node. *)
Definition handleMouseUp (selectedText : string) (anchorText : option string)
    (x y : Z) (w : World) : World :=
  if truthy (Some selectedText) && (1 <? String.length selectedText)%nat
  then match anchorText with
       | Some parentText =>
           setSelection (Some {| sel_text := selectedText; sel_x := x; sel_y := y;
                                 fullSentence := parentText |}) w
       | None => w
       end
  else if bool_decide (clarification w = None) then setSelection None w else w.

(** *** [handleClarify] *)
Definition handleClarify (w : World) : World :=
  match selection w with
  | None => w
  | Some sel =>
      let w := setLoadingStates (Loading.set_clarification true) w in
      let w := call (CallClarify (sel_text sel) (fullSentence sel) (language (state w))) w in
      await AwaitClarify w
  end.

Definition handleClarify_resume (body : Settled Clarification) (w : World) : World :=
  let w :=
    match clarifyText body with
    | Fulfilled result => setClarification (Some result) w
    | Rejected _ => alert "Clarification failed. Please try again." w
    end in
  setLoadingStates (Loading.set_clarification false) w.

Definition closeClarification (w : World) : World :=
  setSelection None (setClarification None w).

(** *** [handleMoreBonus] *)
Definition handleMoreBonus (w : World) : World :=
  match ocrResult (state w), masterNote (state w) with
  | Some ocr, Some note =>
      let w := setLoadingStates (Loading.set_moreBonus true) w in
      let w := call (CallMoreBonus (ocrText ocr) (layer3 note) (subject ocr)
                       (language (state w))) w in
      await AwaitMoreBonus w
  | _, _ => w
  end.

(** The updater of [handleMoreBonus]. *)
Definition appendBonus (moreContent : string) (prev : AppState) : AppState :=
  match masterNote prev with
  | None => prev
  | Some note =>
      set_masterNote
        (Some {| layer1 := layer1 note; layer2 := layer2 note;
                 layer3 := layer3 note +:+ nl +:+ nl +:+ moreContent |}) prev
  end.

Definition handleMoreBonus_resume (response : Settled GenerateContentResponse)
    (w : World) : World :=
  let w :=
    match generateMoreBonus response with
    | Fulfilled moreContent => setState (appendBonus moreContent) w
    | Rejected _ => alert "Failed to generate more bonus content." w
    end in
  setLoadingStates (Loading.set_moreBonus false) w.

(** *** [handleGenerateMoreMCQs] *)
Definition handleGenerateMoreMCQs (w : World) : World :=
  match ocrResult (state w) with
  | None => w
  | Some ocr =>
      let snapshot := state w in
      let w := setLoadingStates (Loading.set_morePractice true) w in
      let nextBatchNum := length (mcqBatches snapshot) + 1 in
      let prevContext :=
        join " | " (flat_map (λ b, map question (questions b)) (mcqBatches snapshot)) in
      let w := call (CallMCQBatch (ocrText ocr) (language snapshot) nextBatchNum
                       prevContext) w in
      await (AwaitMoreMCQs snapshot nextBatchNum) w
  end.

(** The updater of [handleGenerateMoreMCQs]. *)
Definition appendBatch (newBatch : MCQBatch) (prev : AppState) : AppState :=
  set_userAnswers ∅
    (set_examFinished false
       (set_currentQuestionIndex 0
          (set_mcqBatches (mcqBatches prev ++ [newBatch]) prev))).

Definition handleGenerateMoreMCQs_resume (snapshot : AppState) (nextBatchNum : nat)
    (body : Settled McqData) (w : World) : World :=
  let w :=
    match generateMCQBatch body with
    | Fulfilled result =>
        if (0 <? length (res_questions result))%nat
        then
          let newBatch :=
            {| batchNumber := nextBatchNum; questions := res_questions result;
               coverageReport := res_coverageReport result |} in
          let w := setState (appendBatch newBatch) w in
          setActiveBatchIndex (length (mcqBatches snapshot)) w
        else alert "No more unique questions could be generated for this text." w
    | Rejected _ => alert "Failed to generate more practice questions." w
    end in
  setLoadingStates (Loading.set_morePractice false) w.

(** *** [handleFileUpload] and [removeImage] *)
Definition handleFileUpload (files : list File) (w : World) : World :=
  if bool_decide (length files = 0) then w
  else
    let currentCount := length (images (state w)) in
    let remainingSlots := (5 - Z.of_nat currentCount)%Z in
    let filesToProcess := slice0 remainingSlots files in
    if bool_decide (length filesToProcess = 0) && (5 <=? currentCount)%nat
    then alert "Maximum 5 photos allowed." w
    else await (AwaitFiles filesToProcess) w.

Definition handleFileUpload_resume (filesToProcess : list File) (w : World) : World :=
  match promiseAll (map readResult filesToProcess) with
  | Fulfilled newBase64Images =>
      setState (λ prev, set_images (images prev ++ newBase64Images) (set_error None prev)) w
  | Rejected _ => alert "Failed to load images." w
  end.

Definition removeImage (index : nat) (w : World) : World :=
  setState (λ prev, set_images (delete index (images prev)) prev) w.

(** *** [handleGenerate] *)

(** The updater that opens a run. *)
Definition resetRun (prev : AppState) : AppState :=
  {| images := images prev; processing := true; ocrResult := None; masterNote := None;
     summary := None; mcqBatches := []; flashcards := []; language := language prev;
     activeTab := activeTab prev; currentQuestionIndex := 0; userAnswers := ∅;
     examFinished := false; error := None |}.

Definition handleGenerate (w : World) : World :=
  if bool_decide (length (images (state w)) = 0) then w
  else
    let snapshot := state w in
    let w := setState resetRun w in
    let w := setActiveBatchIndex 0 w in
    let w := setLoadingStates (λ _, Loading.runStarted) w in
    let w := call (CallExtract (images snapshot)) w in
    await (AwaitExtract snapshot) w.

(** The [.then/.catch] pairs of the four derivations. *)
Definition onMasterNote (body : Settled MasterNote) (w : World) : World :=
  match generateMasterNote body with
  | Fulfilled note =>
      setLoadingStates (Loading.set_notes false) (setState (set_masterNote (Some note)) w)
  | Rejected _ => setLoadingStates (Loading.set_notes false) w
  end.

Definition onSummary (response : Settled GenerateContentResponse) (w : World) : World :=
  match generateSummary response with
  | Fulfilled summaryContent =>
      setLoadingStates (Loading.set_summary false)
        (setState (set_summary (Some summaryContent)) w)
  | Rejected _ => setLoadingStates (Loading.set_summary false) w
  end.

Definition onMCQBatch (body : Settled McqData) (w : World) : World :=
  match generateMCQBatch body with
  | Fulfilled batch =>
      setLoadingStates (Loading.set_practice false)
        (setState
           (set_mcqBatches
              [ {| batchNumber := 1; questions := res_questions batch;
                   coverageReport := res_coverageReport batch |} ]) w)
  | Rejected _ => setLoadingStates (Loading.set_practice false) w
  end.

Definition onFlashcards (body : Settled (option (list Flashcard))) (w : World) : World :=
  match generateFlashcards body with
  | Fulfilled cards =>
      setLoadingStates (Loading.set_flashcards false) (setState (set_flashcards cards) w)
  | Rejected _ => setLoadingStates (Loading.set_flashcards false) w
  end.

Definition analysisFailed : string :=
  "Analysis failed. The images might be blurry or the server is busy.".

Definition handleGenerate_resume (snapshot : AppState) (body : Settled OcrData)
    (w : World) : World :=
  match extractOCRAndSubject body with
  | Fulfilled ocr =>
      let w := setState (λ prev, set_processing false (set_ocrResult (Some ocr) prev)) w in
      let w := setLoadingStates (Loading.set_ocr false) w in
      let w := call (CallMasterNote (ocrText ocr) (subject ocr) (language snapshot)) w in
      let w := await AwaitMasterNote w in
      let w := call (CallSummary (ocrText ocr) (substring0 1000 (ocrText ocr))
                       (language snapshot)) w in
      let w := await AwaitSummary w in
      let w := call (CallMCQBatch (ocrText ocr) (language snapshot) 1 "") w in
      let w := await AwaitMCQBatch w in
      let w := call (CallFlashcards (ocrText ocr) (language snapshot)) w in
      await AwaitFlashcards w
  | Rejected e =>
      let w := setState
                 (λ prev, set_error (Some (js_or (message e) analysisFailed))
                            (set_processing false prev)) w in
      setLoadingStates (λ _, Loading.allClear) w
  end.

(** *** The rendered tree: which controls exist and are enabled *)

Definition present {A} (o : option A) : bool :=
  match o with
  | Some _ => true
  | None => false
  end.

Definition Tab_eqb (a b : Tab) : bool :=
  match a, b with
  | TabMaster, TabMaster | TabSummary, TabSummary | TabPractice, TabPractice
  | TabFlashcards, TabFlashcards | TabMistakes, TabMistakes => true
  | _, _ => false
  end.

(** [state.error && !state.processing] *)
Definition errorView (w : World) : bool :=
  truthy (error (state w)) && negb (processing (state w)).

(** [!state.ocrResult && !state.processing && !state.error] *)
Definition uploadView (w : World) : bool :=
  negb (present (ocrResult (state w))) && negb (processing (state w))
  && negb (truthy (error (state w))).

(** [state.ocrResult && !state.error] *)
Definition resultsView (w : World) : bool :=
  present (ocrResult (state w)) && negb (truthy (error (state w))).

Definition currentBatch (w : World) : option MCQBatch :=
  mcqBatches (state w) !! activeBatchIndex w.

(** [currentBatch?.questions?.length || 0] *)
Definition totalInBatch (w : World) : nat :=
  match currentBatch w with
  | Some b => length (questions b)
  | None => 0
  end.

(** [currentBatch.questions[state.currentQuestionIndex]] *)
Definition currentQuestion (w : World) : option MCQQuestion :=
  match currentBatch w with
  | Some b => questions b !! currentQuestionIndex (state w)
  | None => None
  end.

(** [!!state.userAnswers[qId]] *)
Definition answered (w : World) (q : MCQQuestion) : bool :=
  truthy (userAnswers (state w) !! q_id q).

(** The section of layer 3, with the "More Questions" button. *)
Definition masterControls (w : World) : bool :=
  resultsView w && Tab_eqb (activeTab (state w)) TabMaster
  && negb (Loading.notes (loadingStates w) && negb (present (masterNote (state w))))
  && present (masterNote (state w)).

(** The practice tab once a current batch exists. *)
Definition practiceControls (w : World) : bool :=
  resultsView w && Tab_eqb (activeTab (state w)) TabPractice
  && negb (Loading.practice (loadingStates w)
           && bool_decide (length (mcqBatches (state w)) = 0))
  && present (currentBatch w).

(** What the environment hands to a suspended handler. *)
Inductive Outcome :=
| FilesRead
| OcrBody (body : Settled OcrData)
| ClarifyBody (body : Settled Clarification)
| NoteBody (body : Settled MasterNote)
| TextResponse (response : Settled GenerateContentResponse)
| McqBody (body : Settled McqData)
| CardsBody (body : Settled (option (list Flashcard))).

(** The code that runs when a suspended handler is handed an outcome of
    the right kind. *)
Definition resume (p : Pending) (o : Outcome) : option (World → World) :=
  match p, o with
  | AwaitClarify, ClarifyBody body => Some (handleClarify_resume body)
  | AwaitMoreBonus, TextResponse response => Some (handleMoreBonus_resume response)
  | AwaitMoreMCQs snapshot nextBatchNum, McqBody body =>
      Some (handleGenerateMoreMCQs_resume snapshot nextBatchNum body)
  | AwaitFiles filesToProcess, FilesRead => Some (handleFileUpload_resume filesToProcess)
  | AwaitExtract snapshot, OcrBody body => Some (handleGenerate_resume snapshot body)
  | AwaitMasterNote, NoteBody body => Some (onMasterNote body)
  | AwaitSummary, TextResponse response => Some (onSummary response)
  | AwaitMCQBatch, McqBody body => Some (onMCQBatch body)
  | AwaitFlashcards, CardsBody body => Some (onFlashcards body)
  | _, _ => None
  end.

Inductive Event :=
| ClickTab (tab : Tab)
| ClickLanguage
| MouseUp (selectedText : string) (anchorText : option string) (x y : Z)
| ClickClarify
| ClickCloseClarification
| PickFiles (files : list File)
| ClickRemoveImage (index : nat)
| ClickGenerate
| ClickTryAgain
| ClickClearImages
| ClickStartNew
| ClickMoreBonus
| ClickMoreMCQs
| ClickBatch (i : nat)
| ClickOption (key : OptionKey)
| ClickPrevious
| ClickNext
| ClickFinish
| Settle (i : nat) (o : Outcome).

(** Whether the rendered tree of [w] has the control of the event, not
    disabled (for [Settle]: whether such a promise is outstanding). *)
Definition enabled (w : World) (ev : Event) : bool :=
  match ev with
  | ClickTab tab => negb (Tab_eqb tab TabMistakes)
  | ClickLanguage => true
  | MouseUp _ _ _ _ => true
  | ClickClarify =>
      present (selection w) && negb (present (clarification w))
      && negb (Loading.clarification (loadingStates w))
  | ClickCloseClarification =>
      present (clarification w) || Loading.clarification (loadingStates w)
  | PickFiles _ => uploadView w
  | ClickRemoveImage index =>
      uploadView w && bool_decide (index < length (images (state w)))
  | ClickGenerate =>
      uploadView w && negb (bool_decide (length (images (state w)) = 0))
  | ClickTryAgain => errorView w
  | ClickClearImages => errorView w
  | ClickStartNew => resultsView w
  | ClickMoreBonus => masterControls w && negb (Loading.moreBonus (loadingStates w))
  | ClickMoreMCQs => practiceControls w && negb (Loading.morePractice (loadingStates w))
  | ClickBatch i => practiceControls w && bool_decide (i < length (mcqBatches (state w)))
  | ClickOption _ =>
      practiceControls w
      && match currentQuestion w with
         | Some q => negb (answered w q)
         | None => false
         end
  | ClickPrevious =>
      practiceControls w && negb (bool_decide (currentQuestionIndex (state w) = 0))
  | ClickNext =>
      practiceControls w
      && bool_decide (Z.of_nat (currentQuestionIndex (state w)) < Z.of_nat (totalInBatch w) - 1)%Z
  | ClickFinish =>
      practiceControls w
      && negb (bool_decide (Z.of_nat (currentQuestionIndex (state w)) < Z.of_nat (totalInBatch w) - 1)%Z)
  | Settle i o =>
      match pending w !! i with
      | Some p => present (resume p o)
      | None => false
      end
  end.

(** The handler bound to the control. *)
Definition fire (w : World) (ev : Event) : World :=
  match ev with
  | ClickTab tab => setState (set_activeTab tab) w
  | ClickLanguage =>
      setState (λ p, set_language (match language p with BN => EN | EN => BN end) p) w
  | MouseUp selectedText anchorText x y => handleMouseUp selectedText anchorText x y w
  | ClickClarify => handleClarify w
  | ClickCloseClarification => closeClarification w
  | PickFiles files => handleFileUpload files w
  | ClickRemoveImage index => removeImage index w
  | ClickGenerate => handleGenerate w
  | ClickTryAgain => handleGenerate w
  | ClickClearImages => setState (λ s, set_images [] (set_error None s)) w
  | ClickStartNew =>
      setState (λ p, set_error None (set_images [] (set_ocrResult None p))) w
  | ClickMoreBonus => handleMoreBonus w
  | ClickMoreMCQs => handleGenerateMoreMCQs w
  | ClickBatch i =>
      setState (set_currentQuestionIndex 0) (setActiveBatchIndex i w)
  | ClickOption key =>
      match currentQuestion w with
      | Some q =>
          setState (λ s, set_userAnswers (<[q_id q := key_string key]> (userAnswers s)) s) w
      | None => w
      end
  | ClickPrevious =>
      setState (λ s, set_currentQuestionIndex (currentQuestionIndex s - 1) s) w
  | ClickNext =>
      setState (λ s, set_currentQuestionIndex (currentQuestionIndex s + 1) s) w
  | ClickFinish => setState (set_examFinished true) w
  | Settle i o =>
      match pending w !! i with
      | Some p =>
          match resume p o with
          | Some continue => continue (set_pending (delete i (pending w)) w)
          | None => w
          end
      | None => w
      end
  end.

(** One event of the session: a control that is absent or disabled
    swallows the event. *)
Definition step (w : World) (ev : Event) : World :=
  if enabled w ev then fire w ev else w.

Definition run (w : World) (trace : list Event) : World :=
  foldl step w trace.

(** Every event of the trace found its control enabled. *)
Fixpoint allEnabled (w : World) (trace : list Event) : bool :=
  match trace with
  | [] => true
  | ev :: rest => enabled w ev && allEnabled (step w ev) rest
  end.
End App.

(** ** Vocabulary of the properties *)

Module Props.
Import GeminiService App.

(** *** Completions of the four derivations, in any order *)

Inductive Completion :=
| NoteDone (body : Settled MasterNote)
| SummaryDone (response : Settled GenerateContentResponse)
| BatchDone (body : Settled McqData)
| CardsDone (body : Settled (option (list Flashcard))).

Definition complete (w : World) (c : Completion) : World :=
  match c with
  | NoteDone body => onMasterNote body w
  | SummaryDone response => onSummary response w
  | BatchDone body => onMCQBatch body w
  | CardsDone body => onFlashcards body w
  end.

Definition completeAll (w : World) (cs : list Completion) : World :=
  foldl complete w cs.

(** Which artifact a completion belongs to. *)
Definition artifact (c : Completion) : nat :=
  match c with
  | NoteDone _ => 0
  | SummaryDone _ => 1
  | BatchDone _ => 2
  | CardsDone _ => 3
  end.

Definition isDerivation (p : Pending) : bool :=
  match p with
  | AwaitMasterNote | AwaitSummary | AwaitMCQBatch | AwaitFlashcards => true
  | _ => false
  end.

(** *** Batch numbering *)

Definition batchNumbers (w : World) : list nat :=
  map batchNumber (mcqBatches (state w)).

(** Suspended code that will write the batch list, or start the call
    that does. *)
Definition batchWriter (p : Pending) : bool :=
  match p with
  | AwaitExtract _ | AwaitMCQBatch | AwaitMoreMCQs _ _ => true
  | _ => false
  end.

Definition writers (l : list Pending) : list Pending :=
  filter (λ p, batchWriter p = true) l.

(** A call that produces a batch and is still in flight. *)
Definition batchCallInFlight (p : Pending) : bool :=
  match p with
  | AwaitMCQBatch | AwaitMoreMCQs _ _ => true
  | _ => false
  end.

Definition startsRun (ev : Event) : bool :=
  match ev with
  | ClickGenerate | ClickTryAgain => true
  | _ => false
  end.

(** The event does not open a run while a batch-producing call of an
    earlier run is still in flight. *)
Definition noStaleBatchCall (w : World) (ev : Event) : bool :=
  negb (startsRun ev && enabled w ev)
  || forallb (λ p, negb (batchCallInFlight p)) (pending w).

Fixpoint runsDoNotOverlap (w : World) (trace : list Event) : bool :=
  match trace with
  | [] => true
  | ev :: rest => noStaleBatchCall w ev && runsDoNotOverlap (step w ev) rest
  end.

(** What the suspended batch writers of a session without overlapping
    runs look like, and how they relate to the batch list. *)
Definition batchInv (w : World) : Prop :=
  batchNumbers w = seq 1 (length (mcqBatches (state w)))
  ∧ match writers (pending w) with
    | [] => True
    | [AwaitExtract _] =>
        processing (state w) = true ∧ mcqBatches (state w) = []
    | [AwaitMCQBatch] => mcqBatches (state w) = []
    | [AwaitMoreMCQs snapshot nextBatchNum] =>
        length (mcqBatches snapshot) = length (mcqBatches (state w))
        ∧ nextBatchNum = length (mcqBatches (state w)) + 1
        ∧ Loading.morePractice (loadingStates w) = true
    | _ => False
    end.

(** *** Image add operations *)


(** One add operation: the files are picked and read to the end. *)
Definition addImages (files : list File) (w : World) : World :=
  step (step w (PickFiles files)) (Settle (length (pending w)) FilesRead).






Definition readable (f : File) : Prop :=
  ∃ data, readResult f = Fulfilled data.

Definition base64 (f : File) : string :=
  match readResult f with
  | Fulfilled data => data
  | Rejected _ => ""
  end.
End Props.

(** ** Concrete sessions *)

Module Sample.
Import GeminiService App Props.

Definition page (name : string) : File :=
  {| fileName := name; readResult := Fulfilled ("data:image/jpeg;base64," +:+ name) |}.

Definition ocrOne : OcrData :=
  {| data_ocrText := Some "first chapter"; data_subject := Some MATH |}.
Definition ocrTwo : OcrData :=
  {| data_ocrText := Some "second chapter"; data_subject := Some GK |}.

Definition noteOne : MasterNote :=
  {| layer1 := "one exact"; layer2 := "one tricks"; layer3 := "one bonus" |}.
Definition noteTwo : MasterNote :=
  {| layer1 := "two exact"; layer2 := "two tricks"; layer3 := "two bonus" |}.

Definition ask (n : Z) (txt : string) : MCQQuestion :=
  {| q_id := n; question := txt;
     options := {| optA := "a"; optB := "b"; optC := "c"; optD := "d" |};
     correctAnswer := KeyB; briefExplanation := "because"; sourceTag := "p1";
     covers := [] |}.

Definition mcq (qs : list MCQQuestion) : McqData :=
  {| practice := None;
     top := {| root_questions := Some qs; root_endOfBatch_coverageReport := None;
               root_coverageReport := None |} |}.

Definition cards : list Flashcard := [ {| card_id := 1; card_question := "why" |} ].

Definition unavailable : JsError := {| message := Some "503 Service Unavailable" |}.

(** One image is uploaded and the extraction of the first run succeeds. *)
Definition firstRunExtracted : list Event :=
  [ PickFiles [page "p1"]; Settle 0 FilesRead; ClickGenerate;
    Settle 0 (OcrBody (Fulfilled ocrOne)) ].

Definition fivePages : list File :=
  [ page "p1"; page "p2"; page "p3"; page "p4"; page "p5" ].

Definition uploadedWorld : World :=
  run initialWorld [ PickFiles [page "p1"]; Settle 0 FilesRead ].

(** "Start New", another image, and a second run. *)
Definition secondRunStarted : list Event :=
  [ ClickStartNew; PickFiles [page "p2"] ].

(** The second image is read: "Generate Study Kit" is on screen while
    the four derivations of the first run are still suspended. *)
Definition secondRunReady : World :=
  run initialWorld (firstRunExtracted ++ secondRunStarted ++ [ Settle 4 FilesRead ]).

(** The master note of the first run arrives after the one of the
    second run.  The pending list is
    [note1; summary1; batch1; cards1; note2; summary2; batch2; cards2]
    after the second extraction. *)
Definition staleNoteBefore : list Event :=
  firstRunExtracted ++ secondRunStarted
  ++ [ Settle 4 FilesRead; ClickGenerate; Settle 4 (OcrBody (Fulfilled ocrTwo));
       Settle 4 (NoteBody (Fulfilled noteTwo)) ].

Definition staleNote : list Event :=
  staleNoteBefore ++ [ Settle 0 (NoteBody (Fulfilled noteOne)) ].

(** The first run delivers its first batch, the user asks for more
    questions, starts over, and the extension arrives after the second
    run has begun. *)
Definition extensionRequested : list Event :=
  firstRunExtracted
  ++ [ Settle 2 (McqBody (Fulfilled (mcq [ask 1 "q1"]))); ClickTab TabPractice;
       ClickMoreMCQs ].

Definition extensionWorld : World := run initialWorld extensionRequested.

(** The state the extension handler saw when it was clicked. *)
Definition extensionSnapshot : AppState :=
  state (run initialWorld
           (firstRunExtracted
            ++ [ Settle 2 (McqBody (Fulfilled (mcq [ask 1 "q1"]))); ClickTab TabPractice ])).

(** The first question of the first batch has been answered with C. *)
Definition answeredWorld : World :=
  run initialWorld
    (firstRunExtracted
     ++ [ Settle 2 (McqBody (Fulfilled (mcq [ask 1 "q1"]))); ClickTab TabPractice;
          ClickOption KeyC ]).

Definition staleExtensionBefore : list Event :=
  extensionRequested ++ secondRunStarted ++ [ Settle 4 FilesRead; ClickGenerate ].

Definition staleExtension : list Event :=
  staleExtensionBefore ++ [ Settle 3 (McqBody (Fulfilled (mcq [ask 2 "q2"]))) ].

(** The second run is started while the derivations of the first are
    still suspended; the master note of the first run arrives during the
    second extraction, which then fails.  The pending list is
    [summary1; batch1; cards1; extract2] when it does. *)
Definition secondRunExtracting : list Event :=
  firstRunExtracted ++ secondRunStarted ++ [ Settle 4 FilesRead; ClickGenerate ].

Definition secondExtractionFails : list Event :=
  secondRunExtracting
  ++ [ Settle 0 (NoteBody (Fulfilled noteOne)); Settle 3 (OcrBody (Rejected unavailable)) ].



End Sample.

(** ** services/geminiService.ts: text handling around the gateway *)

Module GeminiText.
Import GeminiService.

(** [text.replace(/pat/g, "")] for a literal pattern: the matches are
    taken from left to right and do not overlap.  [skip] counts the
    characters of the current match that are still to be dropped. *)
Fixpoint removeAll_from (pat : string) (skip : nat) (s : string) : string :=
  match s with
  | EmptyString => EmptyString
  | String c rest =>
      match skip with
      | S k => removeAll_from pat k rest
      | 0 =>
          if String.prefix pat s
          then removeAll_from pat (String.length pat - 1) rest
          else String c (removeAll_from pat 0 rest)
      end
  end.

Definition removeAll (pat : string) (s : string) : string := removeAll_from pat 0 s.

(** [s.includes(pat)] *)
Fixpoint includes (pat : string) (s : string) : bool :=
  String.prefix pat s
  || match s with
     | EmptyString => false
     | String _ rest => includes pat rest
     end.

(** [s.split(sep)] for a one-character separator. *)
Fixpoint splitOn (sep : ascii) (s : string) : list string :=
  match s with
  | EmptyString => [EmptyString]
  | String c rest =>
      if Ascii.eqb c sep then EmptyString :: splitOn sep rest
      else match splitOn sep rest with
           | seg :: segs => String c seg :: segs
           | [] => [String c EmptyString]
           end
  end.

(** [img.split(',')[1] || img], the [data] of an image part in
    [extractOCRAndSubject]. *)
Definition imagePayload (img : string) : string :=
  js_or (splitOn ","%char img !! 1) img.

Definition parseFailed : string :=
  "Failed to parse AI response. The content might be too complex or formatted incorrectly.".

Section Parse.
(** [JSON.parse] and the white space table of [String.prototype.trim]
    belong to the JavaScript runtime; [JSON_parse] answers [None] where
    [JSON.parse] throws. *)
Context {J : Type} (JSON_parse : string → option J) (isWhiteSpace : ascii → bool).

Fixpoint trimStart (s : string) : string :=
  match s with
  | EmptyString => EmptyString
  | String c rest => if isWhiteSpace c then trimStart rest else s
  end.

Fixpoint trimEnd (s : string) : string :=
  match s with
  | EmptyString => EmptyString
  | String c rest =>
      match trimEnd rest with
      | EmptyString => if isWhiteSpace c then EmptyString else String c EmptyString
      | kept => String c kept
      end
  end.

(** [s.trim()] *)
Definition trim (s : string) : string := trimEnd (trimStart s).

(** The argument [parseJSONSafely] hands to [JSON.parse]. *)
Definition cleaned (text : string) : string :=
  trim (removeAll "```" (removeAll "```json" text)).

Definition parseJSONSafely (text : string) : Settled J :=
  match JSON_parse (cleaned text) with
  | Some data => Fulfilled data
  | None => Rejected {| message := Some parseFailed |}
  end.

(** The [try] body shared by the JSON endpoints:
    [parseJSONSafely(response.text || '{}')] after the gateway call. *)
Definition jsonBody (call : Settled GenerateContentResponse) : Settled J :=
  match call with
  | Fulfilled response => parseJSONSafely (js_or (text response) "{}")
  | Rejected e => Rejected e
  end.
End Parse.

(** The ASCII part of the white space table: tab, line feed, vertical
    tab, form feed, carriage return and space. *)
Definition asciiWhiteSpace (c : ascii) : bool :=
  match nat_of_ascii c with
  | 9 | 10 | 11 | 12 | 13 | 32 => true
  | _ => false
  end.

(** What a settled value is mapped to by reading typed fields off it. *)
Definition mapSettled {A B} (f : A → B) (r : Settled A) : Settled B :=
  match r with
  | Fulfilled a => Fulfilled (f a)
  | Rejected e => Rejected e
  end.
End GeminiText.

(** ** Stand-ins for the runtime in concrete sessions *)

Module Runtime.
Import GeminiService GeminiText.

(** A parser that accepts the texts starting with an opening brace and
    answers the text itself. *)
Definition braceParse (s : string) : option string :=
  if String.prefix "{" s then Some s else None.

(** Every payload read as an extraction result without fields. *)
Definition noFields (data : string) : OcrData :=
  {| data_ocrText := None; data_subject := None |}.
End Runtime.

(** ** Vocabulary of the further properties *)

Module Behaviour.
Import GeminiService App Props.

(** The extracted text a call of the service is given. *)
Definition callText (c : Call) : option string :=
  match c with
  | CallMasterNote t _ _ | CallMoreBonus t _ _ _ | CallSummary t _ _
  | CallMCQBatch t _ _ _ | CallFlashcards t _ => Some t
  | CallExtract _ | CallClarify _ _ _ => None
  end.

(** The call is given the text of the extraction result the session
    holds. *)
Definition carriesCurrentText (w : World) (c : Call) : Prop :=
  ∀ t, callText c = Some t →
       ∃ ocr, ocrResult (state w) = Some ocr ∧ ocrText ocr = t.

Definition isExtract (p : Pending) : bool :=
  match p with
  | AwaitExtract _ => true
  | _ => false
  end.

Definition extractions (l : list Pending) : list Pending :=
  filter (λ p, isExtract p = true) l.

(** At most one extraction is suspended, and while it is the session
    shows the processing screen only. *)
Definition extractionInv (w : World) : Prop :=
  match extractions (pending w) with
  | [] => True
  | [_] =>
      processing (state w) = true ∧ ocrResult (state w) = None
      ∧ truthy (error (state w)) = false
  | _ => False
  end.

(** Suspended code of a derivation or of an extension: it writes an
    artifact when it settles. *)
Definition artifactWriter (p : Pending) : bool :=
  match p with
  | AwaitMoreBonus | AwaitMoreMCQs _ _ | AwaitMasterNote | AwaitSummary
  | AwaitMCQBatch | AwaitFlashcards => true
  | _ => false
  end.

(** The event hands an outcome to an extraction call. *)
Definition settlesExtraction (ev : Event) : bool :=
  match ev with
  | Settle _ (OcrBody _) => true
  | _ => false
  end.

(** The events that do not need the upload, error or results view. *)
Definition usableWhileExtracting (ev : Event) : bool :=
  match ev with
  | ClickTab _ | ClickLanguage | MouseUp _ _ _ _ | ClickClarify
  | ClickCloseClarification | Settle _ _ => true
  | _ => false
  end.

(** [xs.filter((x, i) => keep(x, i))], the indices counted from [from]. *)
Fixpoint filterWithIndex {A} (keep : A → nat → bool) (from : nat) (l : list A) : list A :=
  match l with
  | [] => []
  | x :: rest =>
      if keep x from then x :: filterWithIndex keep (S from) rest
      else filterWithIndex keep (S from) rest
  end.

(** The practice view points at an existing batch and at a question of
    it (or at question 0). *)
Definition navInv (w : World) : Prop :=
  (mcqBatches (state w) = [] →
   activeBatchIndex w = 0 ∧ currentQuestionIndex (state w) = 0)
  ∧ (mcqBatches (state w) ≠ [] →
     (activeBatchIndex w < length (mcqBatches (state w)))%nat)
  ∧ (currentQuestionIndex (state w) = 0
     ∨ (currentQuestionIndex (state w) < totalInBatch w)%nat).

(** The batch [handleGenerate] stores for the result of the first MCQ
    call. *)
Definition firstBatch (result : McqResult) : MCQBatch :=
  {| batchNumber := 1; questions := res_questions result;
     coverageReport := res_coverageReport result |}.

(** The four calls a successful extraction fans out. *)
Definition derivationCalls (ocr : ProcessingResult) (lang : OutputLanguage) : list Call :=
  [ CallMasterNote (ocrText ocr) (subject ocr) lang;
    CallSummary (ocrText ocr) (substring0 1000 (ocrText ocr)) lang;
    CallMCQBatch (ocrText ocr) lang 1 "";
    CallFlashcards (ocrText ocr) lang ].
End Behaviour.

(** ** Properties *)

Import GeminiService App Props.

(** *** Strings *)

Lemma length_append (a b : string) :
  String.length (a +:+ b) = (String.length a + String.length b)%nat.
Proof. induction a as [|c a IH]; simpl; [done | by rewrite IH]. Qed.

Lemma substring_append (a b : string) :
  String.substring 0 (String.length a) (a +:+ b) = a.
Proof.
  induction a as [|c a IH]; simpl.
  - by destruct b.
  - by rewrite IH.
Qed.

Lemma prefix_append (a b : string) : String.prefix a (a +:+ b) = true.
Proof. apply String.prefix_correct, substring_append. Qed.

Lemma js_or_nonempty (o : option string) (d : string) : d ≠ "" → js_or o d ≠ "".
Proof.
  intros Hd. destruct o as [s|]; simpl; [|done].
  destruct (String.eqb_spec s ""); done.
Qed.

Lemma key_string_truthy (k : OptionKey) : truthy (Some (key_string k)) = true.
Proof. by destruct k. Qed.

(** *** Suspended handlers *)

Lemma lookup_await (l : list Pending) (p : Pending) : (l ++ [p]) !! length l = Some p.
Proof. by rewrite lookup_app_r, Nat.sub_diag. Qed.

Lemma delete_await (l : list Pending) (p : Pending) : delete (length l) (l ++ [p]) = l.
Proof.
  induction l as [|q l IH]; simpl; [done | by rewrite IH].
Qed.

(** Settling a suspended handler removes it and runs its continuation. *)
Lemma step_settle (w : World) (i : nat) (p : Pending) (o : Outcome) (k : World → World) :
  pending w !! i = Some p → resume p o = Some k →
  step w (Settle i o) = k (set_pending (delete i (pending w)) w).
Proof.
  intros Hp Hk. unfold step; simpl. by rewrite Hp, Hk.
Qed.

(** C10: [generateSummary] resolves for every outcome of the gateway
    call; when the call throws it resolves with the literal
    "Summary generation failed."; the [.then] of [handleGenerate] stores
    the string it resolves with, so a failed summary call leaves a
    non-null summary. *)
Theorem generateSummary_always_resolves (w : World) (e : JsError) :
  generateSummary (Rejected e) = Fulfilled "Summary generation failed."
  ∧ (∀ response, ∃ s,
       generateSummary response = Fulfilled s
       ∧ summary (state (onSummary response w)) = Some s)
  ∧ summary (state (onSummary (Rejected e) w)) = Some "Summary generation failed."
  ∧ summary (state (onSummary (Rejected e) w)) ≠ None.
Proof.
  split; [done | split; [| done]].
  intros [response | e']; eexists; split; reflexivity.
Qed.

(** C4: a successful bonus extension that returns [B] turns
    [layer3 = L] into [L + "\n\n" + B]; [L] is a strict prefix of the new
    value and layers 1 and 2 are unchanged. *)
Theorem bonus_extension_appends (w : World) (i : nat) (note : MasterNote)
    (response : Settled GenerateContentResponse) (B : string) :
  pending w !! i = Some AwaitMoreBonus →
  masterNote (state w) = Some note →
  generateMoreBonus response = Fulfilled B →
  let w' := step w (Settle i (TextResponse response)) in
  ∃ note',
    masterNote (state w') = Some note'
    ∧ layer3 note' = layer3 note +:+ nl +:+ nl +:+ B
    ∧ String.prefix (layer3 note) (layer3 note') = true
    ∧ (String.length (layer3 note) < String.length (layer3 note'))%nat
    ∧ substring0 (String.length (layer3 note)) (layer3 note') = layer3 note
    ∧ layer1 note' = layer1 note
    ∧ layer2 note' = layer2 note.
Proof.
  intros Hp Hnote HB w'. subst w'.
  erewrite step_settle; [| exact Hp | reflexivity].
  unfold handleMoreBonus_resume. rewrite HB. simpl.
  unfold appendBonus. rewrite Hnote. simpl.
  eexists. split; [reflexivity |]. simpl.
  split; [done |]. split; [apply prefix_append |].
  split; [| split; [apply substring_append | done]].
  rewrite !length_append. simpl. lia.
Qed.

Lemma bonus_extension_appends_witness :
  let w := set_pending [AwaitMoreBonus]
             (setState (set_masterNote (Some Sample.noteOne)) initialWorld) in
  let w' := step w (Settle 0 (TextResponse (Fulfilled {| text := Some "more" |}))) in
  ∃ note', masterNote (state w') = Some note'
           ∧ layer3 note' = "one bonus" +:+ nl +:+ nl +:+ "more".
Proof.
  intros w w'.
  destruct (bonus_extension_appends w 0 Sample.noteOne
              (Fulfilled {| text := Some "more" |}) "more")
    as (note' & Hnote & Hl3 & _); [reflexivity | reflexivity | reflexivity |].
  exists note'. split; [exact Hnote | exact Hl3].
Defined.

(** C6: a batch extension whose result has no question leaves the
    session state as it was (batch list, [currentQuestionIndex],
    [examFinished], [userAnswers], [error]) and the active batch index
    too; the user is told through [alert]. *)
Theorem empty_extension_changes_nothing (w : World) (i : nat) (snapshot : AppState)
    (nextBatchNum : nat) (body : Settled McqData) (result : McqResult) :
  pending w !! i = Some (AwaitMoreMCQs snapshot nextBatchNum) →
  generateMCQBatch body = Fulfilled result →
  length (res_questions result) = 0 →
  let w' := step w (Settle i (McqBody body)) in
  state w' = state w
  ∧ batchNumbers w' = batchNumbers w
  ∧ length (mcqBatches (state w')) = length (mcqBatches (state w))
  ∧ activeBatchIndex w' = activeBatchIndex w
  ∧ error (state w') = error (state w)
  ∧ alerts w' = alerts w ++ ["No more unique questions could be generated for this text."]
  ∧ calls w' = calls w
  ∧ Loading.morePractice (loadingStates w') = false.
Proof.
  intros Hp Hres Hlen w'. subst w'.
  erewrite step_settle; [| exact Hp | reflexivity].
  unfold handleGenerateMoreMCQs_resume, batchNumbers. rewrite Hres, Hlen. simpl.
  repeat split.
Qed.

Lemma empty_extension_changes_nothing_witness :
  let w := Sample.extensionWorld in
  let w' := step w (Settle 3 (McqBody (Fulfilled (Sample.mcq [])))) in
  state w' = state w ∧ batchNumbers w' = batchNumbers w.
Proof.
  intros w w'.
  destruct (empty_extension_changes_nothing w 3 Sample.extensionSnapshot 2
              (Fulfilled (Sample.mcq []))
              {| res_questions := []; res_coverageReport := defaultCoverageReport |})
    as (Hst & Hnum & _); [vm_compute; reflexivity | reflexivity | reflexivity |].
  split; [exact Hst | exact Hnum].
Defined.

(** C7, as the claim states it, fails when a new run has reset the batch
    list while the extension was in flight: the new batch is stored at
    position 0 while the active batch index is set to 1, the length of the
    list the handler saw when it was clicked. *)
Lemma stale_extension_active_index_misses_new_batch :
  let before := run initialWorld Sample.staleExtensionBefore in
  let after := run initialWorld Sample.staleExtension in
  allEnabled initialWorld Sample.staleExtension = true
  ∧ pending before !! 3 = Some (AwaitMoreMCQs Sample.extensionSnapshot 2)
  ∧ length (mcqBatches (state after)) = 1
  ∧ activeBatchIndex after = 1
  ∧ currentBatch after = None.
Proof. by vm_compute. Qed.

(** C7 (amended): a successful batch extension appends the new batch,
    sets [currentQuestionIndex] to 0, clears [examFinished] and
    [userAnswers], and sets the active batch index to the length the batch
    list had when the extension was requested; that index is the position
    of the new batch whenever the list still has that length. *)
Theorem successful_extension_appends_batch (w : World) (i : nat) (snapshot : AppState)
    (nextBatchNum : nat) (body : Settled McqData) (result : McqResult) :
  pending w !! i = Some (AwaitMoreMCQs snapshot nextBatchNum) →
  generateMCQBatch body = Fulfilled result →
  (0 < length (res_questions result))%nat →
  let newBatch :=
    {| batchNumber := nextBatchNum; questions := res_questions result;
       coverageReport := res_coverageReport result |} in
  let w' := step w (Settle i (McqBody body)) in
  mcqBatches (state w') = mcqBatches (state w) ++ [newBatch]
  ∧ currentQuestionIndex (state w') = 0
  ∧ examFinished (state w') = false
  ∧ userAnswers (state w') = ∅
  ∧ activeBatchIndex w' = length (mcqBatches snapshot)
  ∧ (length (mcqBatches snapshot) = length (mcqBatches (state w)) →
     currentBatch w' = Some newBatch).
Proof.
  intros Hp Hres Hlen newBatch w'. subst w'.
  erewrite step_settle; [| exact Hp | reflexivity].
  unfold handleGenerateMoreMCQs_resume. rewrite Hres.
  apply Nat.ltb_lt in Hlen. rewrite Hlen. simpl.
  repeat split.
  intros Hsame. unfold currentBatch. simpl. rewrite Hsame.
  by rewrite lookup_app_r, Nat.sub_diag.
Qed.

Lemma successful_extension_appends_batch_witness :
  let w := Sample.extensionWorld in
  let newBatch :=
    {| batchNumber := 2; questions := [Sample.ask 2 "q2"];
       coverageReport := defaultCoverageReport |} in
  let w' := step w (Settle 3 (McqBody (Fulfilled (Sample.mcq [Sample.ask 2 "q2"])))) in
  mcqBatches (state w') = mcqBatches (state w) ++ [newBatch]
  ∧ activeBatchIndex w' = 1
  ∧ currentBatch w' = Some newBatch.
Proof.
  intros w newBatch w'.
  destruct (successful_extension_appends_batch w 3 Sample.extensionSnapshot 2
              (Fulfilled (Sample.mcq [Sample.ask 2 "q2"]))
              {| res_questions := [Sample.ask 2 "q2"];
                 res_coverageReport := defaultCoverageReport |})
    as (Hb & _ & _ & _ & Hidx & Hcur);
    [vm_compute; reflexivity | reflexivity | simpl; lia |].
  split; [exact Hb | split; [exact Hidx | apply Hcur; vm_compute; reflexivity]].
Defined.

(** C9: when the question on screen already has a recorded answer, its
    option buttons are disabled; any number of further attempts leaves
    the whole session, and so the recorded option, as it was. *)
Theorem recorded_answer_is_final (w : World) (q : MCQQuestion) (recorded : OptionKey)
    (attempts : list OptionKey) :
  currentQuestion w = Some q →
  userAnswers (state w) !! q_id q = Some (key_string recorded) →
  let w' := run w (map ClickOption attempts) in
  w' = w ∧ userAnswers (state w') !! q_id q = Some (key_string recorded).
Proof.
  intros Hq Hrec w'. subst w'.
  assert (Hone : ∀ key, step w (ClickOption key) = w).
  { intros key. unfold step; simpl. rewrite Hq. unfold answered.
    rewrite Hrec, key_string_truthy. simpl. by rewrite andb_false_r. }
  assert (Hall : run w (map ClickOption attempts) = w).
  { induction attempts as [|key attempts IH]; [done |].
    unfold run in *. simpl. by rewrite Hone. }
  by rewrite Hall.
Qed.

(** Recording an answer for the question on screen makes it answered. *)
Lemma first_answer_is_recorded (w : World) (q : MCQQuestion) (key : OptionKey) :
  currentQuestion w = Some q →
  enabled w (ClickOption key) = true →
  let w' := step w (ClickOption key) in
  currentQuestion w' = Some q
  ∧ userAnswers (state w') !! q_id q = Some (key_string key).
Proof.
  intros Hq Hen w'. subst w'. unfold step. rewrite Hen. simpl. rewrite Hq.
  split; [exact Hq | apply lookup_insert_eq].
Qed.

Lemma recorded_answer_is_final_witness :
  let w := Sample.answeredWorld in
  let w' := run w (map ClickOption [KeyA; KeyB]) in
  w' = w ∧ userAnswers (state w') !! q_id (Sample.ask 1 "q1") = Some (key_string KeyC).
Proof.
  apply (recorded_answer_is_final Sample.answeredWorld (Sample.ask 1 "q1") KeyC
           [KeyA; KeyB]); vm_compute; reflexivity.
Defined.

(** *** The four derivations write disjoint slices *)

Lemma complete_commute (w : World) (a b : Completion) :
  artifact a ≠ artifact b →
  complete (complete w a) b = complete (complete w b) a.
Proof.
  destruct a as [[?|?]|[?|?]|[?|?]|[?|?]], b as [[?|?]|[?|?]|[?|?]|[?|?]];
    simpl; intros Hne; try done.
Qed.

Lemma completeAll_permutation (l l' : list Completion) :
  Permutation l l' → NoDup (map artifact l) →
  ∀ w, completeAll w l = completeAll w l'.
Proof.
  induction 1 as [| x l l' Hperm IH | x y l | l l' l'' H1 IH1 H2 IH2];
    intros Hnd w.
  - done.
  - simpl in Hnd. apply NoDup_cons in Hnd as [_ Hnd]. apply (IH Hnd).
  - simpl in Hnd. apply NoDup_cons in Hnd as [Hy _].
    unfold completeAll. simpl. rewrite complete_commute; [done |].
    intros Heq. apply Hy. rewrite Heq. left.
  - rewrite IH1 by done. apply IH2.
    pose proof (Permutation_map artifact H1) as Hmap. by rewrite <- Hmap.
Qed.




(** *** Image adds *)

Lemma slice0_take {A} (n : nat) (l : list A) : slice0 (Z.of_nat n) l = take n l.
Proof.
  unfold slice0. rewrite (proj2 (Z.ltb_ge _ _)) by lia. by rewrite Nat2Z.id.
Qed.


Lemma promiseAll_readable (files : list File) :
  Forall readable files →
  promiseAll (map readResult files) = Fulfilled (map base64 files).
Proof.
  induction 1 as [|f files [data Hf] _ IH]; simpl; [done |].
  unfold base64 at 1. rewrite Hf, IH. done.
Qed.

Lemma settle_nothing (w : World) (o : Outcome) :
  step w (Settle (length (pending w)) o) = w.
Proof.
  unfold step; simpl. by rewrite (lookup_ge_None_2 (pending w) (length (pending w))).
Qed.

(** An add operation, spelled out: nothing without the upload view or
    without files, the alert at capacity, otherwise the continuation of
    [handleFileUpload] on the files that fit. *)
Lemma addImages_unfold (files : list File) (w : World) :
  addImages files w =
  if uploadView w && negb (bool_decide (length files = 0))
  then
    let filesToProcess := slice0 (5 - Z.of_nat (length (images (state w)))) files in
    if bool_decide (length filesToProcess = 0) && (5 <=? length (images (state w)))%nat
    then alert "Maximum 5 photos allowed." w
    else handleFileUpload_resume filesToProcess w
  else w.
Proof.
  unfold addImages. unfold step at 2. simpl.
  destruct (uploadView w); simpl; [| apply settle_nothing].
  unfold handleFileUpload.
  destruct (bool_decide (length files = 0)); simpl; [apply settle_nothing |].
  match goal with |- context [if ?c then _ else _] => destruct c end.
  - apply (settle_nothing (alert _ w)).
  - erewrite step_settle; [| apply lookup_await | reflexivity].
    simpl. rewrite delete_await. by destruct w.
Qed.


Lemma addImages_pending (files : list File) (w : World) :
  pending (addImages files w) = pending w.
Proof.
  rewrite addImages_unfold.
  destruct (uploadView w && _); [| done]. simpl.
  match goal with |- context [if ?c then _ else _] => destruct c end; [done |].
  unfold handleFileUpload_resume. by destruct (promiseAll _).
Qed.
















(** *** Stale completions *)

(** C3, as the claim states it, fails: the master-note call of the
    first run (suspended at position 0 since the first extraction) settles
    after the second run has stored its own master note, and replaces
    it. *)
Lemma stale_master_note_replaces_newer_one :
  let early := run initialWorld Sample.firstRunExtracted in
  let before := run initialWorld Sample.staleNoteBefore in
  let after := run initialWorld Sample.staleNote in
  allEnabled initialWorld Sample.staleNote = true
  ∧ pending early !! 0 = Some AwaitMasterNote
  ∧ pending before !! 0 = Some AwaitMasterNote
  ∧ ocrResult (state before) = Some {| ocrText := "second chapter"; subject := GK |}
  ∧ masterNote (state before) = Some Sample.noteTwo
  ∧ ocrResult (state after) = Some {| ocrText := "second chapter"; subject := GK |}
  ∧ masterNote (state after) = Some Sample.noteOne.
Proof. by vm_compute. Qed.

Lemma lookup_await_earlier (l : list Pending) (i : nat) (p q : Pending) :
  l !! i = Some p → (l ++ [q]) !! i = Some p.
Proof. intros Hp. by apply lookup_app_l_Some. Qed.

(** C3 (amended): the code has no run tag and cancels nothing.  A
    derivation that is suspended when a run starts stays suspended, and
    whenever it settles, in whatever state the session then is, its
    result replaces its own artifact (master note, summary, batch list or
    flashcards) and clears its own loading flag; the other three
    artifacts, [ocrResult] and [error] are left as they are. *)
Theorem stale_completion_is_applied (w : World) (i : nat) (p : Pending) :
  pending w !! i = Some p →
  isDerivation p = true →
  (∀ ev, startsRun ev = true → pending (step w ev) !! i = Some p)
  ∧ (∀ note, p = AwaitMasterNote →
       let w' := step w (Settle i (NoteBody (Fulfilled note))) in
       masterNote (state w') = Some note
       ∧ Loading.notes (loadingStates w') = false
       ∧ summary (state w') = summary (state w)
       ∧ mcqBatches (state w') = mcqBatches (state w)
       ∧ flashcards (state w') = flashcards (state w)
       ∧ ocrResult (state w') = ocrResult (state w)
       ∧ error (state w') = error (state w))
  ∧ (∀ response s, p = AwaitSummary → generateSummary response = Fulfilled s →
       let w' := step w (Settle i (TextResponse response)) in
       summary (state w') = Some s
       ∧ Loading.summary (loadingStates w') = false
       ∧ masterNote (state w') = masterNote (state w)
       ∧ mcqBatches (state w') = mcqBatches (state w)
       ∧ flashcards (state w') = flashcards (state w)
       ∧ ocrResult (state w') = ocrResult (state w)
       ∧ error (state w') = error (state w))
  ∧ (∀ body result, p = AwaitMCQBatch → generateMCQBatch body = Fulfilled result →
       let w' := step w (Settle i (McqBody body)) in
       mcqBatches (state w')
       = [ {| batchNumber := 1; questions := res_questions result;
              coverageReport := res_coverageReport result |} ]
       ∧ Loading.practice (loadingStates w') = false
       ∧ masterNote (state w') = masterNote (state w)
       ∧ summary (state w') = summary (state w)
       ∧ flashcards (state w') = flashcards (state w)
       ∧ ocrResult (state w') = ocrResult (state w)
       ∧ error (state w') = error (state w))
  ∧ (∀ body cards, p = AwaitFlashcards → generateFlashcards body = Fulfilled cards →
       let w' := step w (Settle i (CardsBody body)) in
       flashcards (state w') = cards
       ∧ Loading.flashcards (loadingStates w') = false
       ∧ masterNote (state w') = masterNote (state w)
       ∧ summary (state w') = summary (state w)
       ∧ mcqBatches (state w') = mcqBatches (state w)
       ∧ ocrResult (state w') = ocrResult (state w)
       ∧ error (state w') = error (state w)).
Proof.
  intros Hp Hder. split; [| split; [| split; [| split]]].
  - intros ev Hev. unfold step. destruct (enabled w ev); [| done].
    destruct ev; try discriminate; simpl; unfold handleGenerate;
      (destruct (bool_decide _); [done | by apply lookup_await_earlier]).
  - intros note ->. simpl. erewrite step_settle; [| exact Hp | reflexivity].
    simpl. repeat split.
  - intros response s -> Hs. simpl. erewrite step_settle; [| exact Hp | reflexivity].
    unfold onSummary. rewrite Hs. simpl. repeat split.
  - intros body result -> Hr. simpl. erewrite step_settle; [| exact Hp | reflexivity].
    unfold onMCQBatch. rewrite Hr. simpl. repeat split.
  - intros body cards -> Hc. simpl. erewrite step_settle; [| exact Hp | reflexivity].
    unfold onFlashcards. rewrite Hc. simpl. repeat split.
Qed.

Lemma stale_completion_is_applied_witness :
  let ready := Sample.secondRunReady in
  let w := run initialWorld Sample.staleNoteBefore in
  enabled ready ClickGenerate = true
  ∧ pending (step ready ClickGenerate) !! 0 = Some AwaitMasterNote
  ∧ masterNote (state (step w (Settle 0 (NoteBody (Fulfilled Sample.noteOne)))))
    = Some Sample.noteOne.
Proof.
  intros ready w.
  destruct (stale_completion_is_applied ready 0 AwaitMasterNote) as (Hkeep & _);
    [vm_compute; reflexivity | reflexivity |].
  destruct (stale_completion_is_applied w 0 AwaitMasterNote) as (_ & Hnote & _);
    [vm_compute; reflexivity | reflexivity |].
  split; [vm_compute; reflexivity |]. split.
  - apply Hkeep. reflexivity.
  - apply (Hnote Sample.noteOne eq_refl).
Defined.

(** *** Batch numbering *)

(** C5, as the claim states it, fails: an extension requested in the
    first run (as batch 2) and completed after the second run has reset
    the batch list leaves a list whose only batch is numbered 2. *)
Lemma stale_extension_breaks_numbering :
  let before := run initialWorld Sample.staleExtensionBefore in
  let after := run initialWorld Sample.staleExtension in
  allEnabled initialWorld Sample.staleExtension = true
  ∧ batchNumbers before = []
  ∧ batchNumbers after = [2]
  ∧ batchNumbers after ≠ seq 1 (length (mcqBatches (state after))).
Proof. by vm_compute. Qed.

Lemma writers_app (l : list Pending) (p : Pending) :
  writers (l ++ [p]) = writers l ++ (if batchWriter p then [p] else []).
Proof.
  unfold writers. rewrite filter_app. f_equal.
  destruct (batchWriter p) eqn:Hp.
  - by rewrite filter_cons_True.
  - rewrite filter_cons_False; [done | by rewrite Hp].
Qed.

Lemma writers_delete_other (l : list Pending) (i : nat) (p : Pending) :
  l !! i = Some p → batchWriter p = false → writers (delete i l) = writers l.
Proof.
  revert i. induction l as [|x l IH]; intros [|i] Hp Hw; simpl in *; try done.
  - injection Hp as ->. unfold writers. rewrite filter_cons_False; [done | by rewrite Hw].
  - unfold writers in *. rewrite !filter_cons. by rewrite (IH i Hp Hw).
Qed.

Lemma writers_delete_only (l : list Pending) (i : nat) (p : Pending) :
  l !! i = Some p → batchWriter p = true → (length (writers l) ≤ 1)%nat →
  writers l = [p] ∧ writers (delete i l) = [].
Proof.
  revert i. induction l as [|x l IH]; intros [|i] Hp Hw Hlen; simpl in *; try done.
  - injection Hp as ->. unfold writers in *.
    rewrite filter_cons_True in * by done. simpl in Hlen.
    destruct (filter _ l); [done | simpl in Hlen; lia].
  - unfold writers in *. rewrite filter_cons in *.
    destruct (decide (batchWriter x = true)) as [Hx | Hx].
    + exfalso. simpl in Hlen.
      assert (Hin : p ∈ filter (λ p, batchWriter p = true) l).
      { apply list_elem_of_filter. split; [done |]. by eapply list_elem_of_lookup_2. }
      destruct (filter _ l); [by apply elem_of_nil in Hin | simpl in Hlen; lia].
    + rewrite (filter_cons_False _ x (delete i l)) by done. by apply IH.
Qed.

(** A step that touches neither the batch list, nor [processing], nor
    the suspended batch writers, nor the [morePractice] flag. *)
Lemma batchInv_frame (w w' : World) :
  mcqBatches (state w') = mcqBatches (state w) →
  processing (state w') = processing (state w) →
  writers (pending w') = writers (pending w) →
  Loading.morePractice (loadingStates w') = Loading.morePractice (loadingStates w) →
  batchInv w →
  batchInv w'
  ∧ mcqBatches (state w) `prefix_of` mcqBatches (state w')
  ∧ (length (mcqBatches (state w')) ≤ S (length (mcqBatches (state w))))%nat.
Proof.
  intros Hb Hp Hw Hm Hinv. unfold batchInv, batchNumbers in *.
  rewrite Hb, Hp, Hw, Hm. split; [done |]. split; [done | lia].
Qed.

(** The continuations that are no batch writers satisfy the frame. *)
Lemma resume_frame (p : Pending) (o : Outcome) (k : World → World) (w : World) :
  resume p o = Some k → batchWriter p = false →
  mcqBatches (state (k w)) = mcqBatches (state w)
  ∧ processing (state (k w)) = processing (state w)
  ∧ pending (k w) = pending w
  ∧ Loading.morePractice (loadingStates (k w)) = Loading.morePractice (loadingStates w).
Proof.
  destruct p, o; simpl; try discriminate; intros [= <-] _.
  - unfold handleClarify_resume. by destruct body.
  - unfold handleMoreBonus_resume. destruct response as [r|e]; simpl; [| done].
    unfold appendBonus. by destruct (masterNote (state w)).
  - unfold handleFileUpload_resume. by destruct (promiseAll _).
  - unfold onMasterNote. by destruct body.
  - unfold onSummary. by destruct response.
  - unfold onFlashcards. by destruct body.
Qed.

Lemma startsRun_not_processing (w : World) (ev : Event) :
  startsRun ev = true → enabled w ev = true → processing (state w) = false.
Proof.
  destruct ev; try discriminate; intros _; simpl; unfold uploadView, errorView;
    destruct (processing (state w)); try done;
    rewrite ?andb_false_r; simpl; rewrite ?andb_false_r; done.
Qed.

Lemma practiceControls_batches (w : World) :
  practiceControls w = true → mcqBatches (state w) ≠ [].
Proof.
  unfold practiceControls, currentBatch. intros Hc Hnil. rewrite Hnil in Hc.
  simpl in Hc. by rewrite andb_false_r in Hc.
Qed.

Lemma writer_not_in_flight (l : list Pending) (p : Pending) :
  forallb (λ p, negb (batchCallInFlight p)) l = true →
  writers l = [p] → batchCallInFlight p = false.
Proof.
  intros Hall Hw.
  assert (Hin : p ∈ l).
  { assert (Hf : p ∈ writers l) by (rewrite Hw; apply list_elem_of_here).
    unfold writers in Hf. by apply list_elem_of_filter in Hf as [_ ?]. }
  rewrite forallb_forall in Hall. apply list_elem_of_In, Hall in Hin.
  by destruct (batchCallInFlight p).
Qed.

Lemma seq_snoc (n : nat) : seq 1 (n + 1) = seq 1 n ++ [n + 1].
Proof. rewrite seq_app. simpl. by rewrite Nat.add_comm. Qed.

Ltac unchanged := split; [done | intros _; split; [done | lia]].

Ltac frame_step w :=
  match goal with
  | |- batchInv ?w' ∧ _ =>
      let H := fresh in
      destruct (batchInv_frame w w') as (H & ? & ?);
      [ try reflexivity; simpl; rewrite ?writers_app; simpl; rewrite ?app_nil_r; reflexivity ..
      | assumption
      | split; [exact H | intros _; split; assumption] ]
  end.

(** Preservation of the invariant, event by event, for a world [w] that
    satisfies it. *)
Section Invariant.
Context (w : World) (Hinv : batchInv w).

Lemma batchInv_numbers : batchNumbers w = seq 1 (length (mcqBatches (state w))).
Proof. apply Hinv. Qed.

Lemma batchInv_cases :
  writers (pending w) = []
  ∨ (∃ s, writers (pending w) = [AwaitExtract s]
          ∧ processing (state w) = true ∧ mcqBatches (state w) = [])
  ∨ (writers (pending w) = [AwaitMCQBatch] ∧ mcqBatches (state w) = [])
  ∨ (∃ s n, writers (pending w) = [AwaitMoreMCQs s n]
            ∧ length (mcqBatches s) = length (mcqBatches (state w))
            ∧ n = length (mcqBatches (state w)) + 1
            ∧ Loading.morePractice (loadingStates w) = true).
Proof.
  pose proof (proj2 Hinv) as Hw.
  destruct (writers (pending w)) as [|q [|q' rest]]; [by left | | by destruct q].
  destruct q; try done.
  - right; right; right. eauto.
  - right; left. eauto.
  - right; right; left. eauto.
Qed.

Lemma batchInv_short : (length (writers (pending w)) ≤ 1)%nat.
Proof.
  destruct batchInv_cases as [H | [(s & H & _) | [[H _] | (s & n & H & _)]]];
    rewrite H; simpl; lia.
Qed.

(** In a session without overlapping runs the list a suspended extension
    saw when it was requested is as long as the current one. *)
Lemma extension_snapshot_is_current (i : nat) (snapshot : AppState) (nextBatchNum : nat) :
  pending w !! i = Some (AwaitMoreMCQs snapshot nextBatchNum) →
  length (mcqBatches snapshot) = length (mcqBatches (state w))
  ∧ nextBatchNum = length (mcqBatches (state w)) + 1.
Proof.
  intros Hp.
  destruct (writers_delete_only _ i _ Hp eq_refl batchInv_short) as [Honly _].
  destruct batchInv_cases as [H | [(s & H & _) | [[H _] | (s & n & H & Hlen & Hn & _)]]];
    rewrite Honly in H; try discriminate.
  by injection H as -> ->.
Qed.

Lemma handleGenerate_batchInv :
  processing (state w) = false →
  forallb (λ p, negb (batchCallInFlight p)) (pending w) = true →
  batchInv (handleGenerate w).
Proof.
  intros Hproc Hall. unfold handleGenerate.
  destruct (bool_decide _); [done |].
  assert (Hnil : writers (pending w) = []).
  { destruct batchInv_cases as [H | [(s & H & Hp & _) | [[H _] | (s & n & H & _)]]];
      [done | congruence | |].
    - by pose proof (writer_not_in_flight _ _ Hall H).
    - by pose proof (writer_not_in_flight _ _ Hall H). }
  unfold batchInv, batchNumbers. simpl. rewrite writers_app, Hnil. simpl. done.
Qed.

Lemma handleGenerateMoreMCQs_batchInv :
  enabled w ClickMoreMCQs = true →
  batchInv (handleGenerateMoreMCQs w)
  ∧ mcqBatches (state (handleGenerateMoreMCQs w)) = mcqBatches (state w).
Proof.
  intros Hen. simpl in Hen. apply andb_true_iff in Hen as [Hctl Hflag].
  apply practiceControls_batches in Hctl. apply negb_true_iff in Hflag.
  unfold handleGenerateMoreMCQs. destruct (ocrResult (state w)); [| done].
  split; [| done].
  assert (Hnil : writers (pending w) = []).
  { destruct batchInv_cases
      as [H | [(s & _ & _ & Hb) | [[_ Hb] | (s & n & _ & _ & _ & Hm)]]];
      [done | done | done | congruence]. }
  pose proof batchInv_numbers as Hnum.
  unfold batchInv, batchNumbers in *. simpl. rewrite writers_app, Hnil. simpl. done.
Qed.

Lemma settle_batchInv (i : nat) (p : Pending) (o : Outcome) (k : World → World) :
  pending w !! i = Some p → resume p o = Some k →
  batchInv (k (set_pending (delete i (pending w)) w))
  ∧ mcqBatches (state w)
      `prefix_of` mcqBatches (state (k (set_pending (delete i (pending w)) w)))
  ∧ (length (mcqBatches (state (k (set_pending (delete i (pending w)) w))))
     ≤ S (length (mcqBatches (state w))))%nat.
Proof.
  intros Hp Hk.
  destruct (batchWriter p) eqn:Hwriter.
  - destruct (writers_delete_only _ i p Hp Hwriter batchInv_short) as [Honly Hgone].
    pose proof batchInv_numbers as Hnum. unfold batchNumbers in Hnum.
    pose proof batchInv_cases as Hcases. rewrite Honly in Hcases.
    destruct p, o; try discriminate; injection Hk as <-.
    + (* the extension *)
      destruct Hcases as [H | [(s & H & _) | [[H _] | (s & n & H & Hlen & Hn & _)]]];
        try discriminate.
      injection H as -> ->.
      unfold handleGenerateMoreMCQs_resume.
      destruct (generateMCQBatch body) as [result | e]; simpl.
      * destruct (0 <? length (res_questions result))%nat; simpl.
        -- unfold batchInv, batchNumbers. simpl. rewrite Hgone.
           rewrite map_app, length_app, Hnum. simpl.
           split; [split; [by rewrite seq_snoc, Hn | done] |].
           split; [by apply prefix_app_r | lia].
        -- unfold batchInv, batchNumbers. simpl. rewrite Hgone.
           split; [done | split; [done | lia]].
      * unfold batchInv, batchNumbers. simpl. rewrite Hgone.
        split; [done | split; [done | lia]].
    + (* the extraction *)
      destruct Hcases as [H | [(s & H & _ & Hb) | [[H _] | (s & n & H & _)]]];
        try discriminate.
      unfold handleGenerate_resume.
      destruct (extractOCRAndSubject body) as [ocr | e]; simpl.
      * unfold batchInv, batchNumbers. simpl.
        rewrite !writers_app, Hgone. simpl.
        split; [done | split; [done | lia]].
      * unfold batchInv, batchNumbers. simpl. rewrite Hgone.
        split; [done | split; [done | lia]].
    + (* the first batch *)
      destruct Hcases as [H | [(s & H & _) | [[_ Hb] | (s & n & H & _)]]];
        try discriminate.
      unfold onMCQBatch.
      destruct (generateMCQBatch body) as [result | e]; simpl.
      * unfold batchInv, batchNumbers. simpl. rewrite Hgone, Hb.
        split; [done | split; [apply prefix_nil | simpl; lia]].
      * unfold batchInv, batchNumbers. simpl. rewrite Hgone.
        split; [done | split; [done | lia]].
  - destruct (resume_frame p o k (set_pending (delete i (pending w)) w) Hk Hwriter)
      as (Hb & Hproc & Hpend & Hm).
    apply batchInv_frame; try done.
    rewrite Hpend. simpl. by apply writers_delete_other with p.
Qed.

(** One event of a session without overlapping runs keeps the numbering
    invariant; unless it opens a run, the batch list only grows at its
    end, by at most one batch. *)
Lemma step_batchInv (ev : Event) :
  noStaleBatchCall w ev = true →
  batchInv (step w ev)
  ∧ (startsRun ev = false →
     mcqBatches (state w) `prefix_of` mcqBatches (state (step w ev))
     ∧ (length (mcqBatches (state (step w ev))) ≤ S (length (mcqBatches (state w))))%nat).
Proof.
  intros Hdisc. unfold step, noStaleBatchCall in Hdisc |- *.
  destruct (enabled w ev) eqn:Hen; [| unchanged].
  destruct ev; simpl in Hdisc |- *.
  - frame_step w.
  - frame_step w.
  - unfold handleMouseUp.
    repeat match goal with |- context [if ?c then _ else _] => destruct c end;
      try destruct anchorText; frame_step w.
  - unfold handleClarify. destruct (selection w); frame_step w.
  - frame_step w.
  - unfold handleFileUpload.
    repeat match goal with |- context [if ?c then _ else _] => destruct c end;
      frame_step w.
  - frame_step w.
  - split; [| done]. apply handleGenerate_batchInv.
    + by apply (startsRun_not_processing w ClickGenerate).
    + exact Hdisc.
  - split; [| done]. apply handleGenerate_batchInv.
    + by apply (startsRun_not_processing w ClickTryAgain).
    + exact Hdisc.
  - frame_step w.
  - frame_step w.
  - unfold handleMoreBonus.
    destruct (ocrResult (state w)), (masterNote (state w)); frame_step w.
  - destruct (handleGenerateMoreMCQs_batchInv Hen) as [Hinv' Hsame].
    split; [done |]. intros _. rewrite Hsame. split; [done | lia].
  - frame_step w.
  - destruct (currentQuestion w); frame_step w.
  - frame_step w.
  - frame_step w.
  - frame_step w.
  - destruct (pending w !! i) as [p|] eqn:Hp; [| unchanged].
    destruct (resume p o) as [k|] eqn:Hk; [| unchanged].
    destruct (settle_batchInv i p o k Hp Hk) as (? & ? & ?). done.
Qed.

End Invariant.

Lemma initial_batchInv : batchInv initialWorld.
Proof. by split. Qed.

Lemma run_batchInv (trace : list Event) (w : World) :
  batchInv w → runsDoNotOverlap w trace = true → batchInv (run w trace).
Proof.
  revert w. induction trace as [|ev trace IH]; intros w Hinv Hok; [done |].
  simpl in Hok. apply andb_true_iff in Hok as [Hev Hrest].
  unfold run. simpl. apply IH; [| done].
  by apply step_batchInv.
Qed.

Lemma runsDoNotOverlap_snoc (trace : list Event) (ev : Event) (w : World) :
  runsDoNotOverlap w (trace ++ [ev]) = true →
  runsDoNotOverlap w trace = true ∧ noStaleBatchCall (run w trace) ev = true.
Proof.
  revert w. induction trace as [|ev' trace IH]; intros w; simpl.
  - rewrite andb_true_r. by intros ->.
  - intros [Hev Hrest]%andb_true_iff. destruct (IH _ Hrest) as [H1 H2].
    by rewrite Hev, H1.
Qed.

(** C5 (amended): in every session in which no run is started while a
    batch-producing call of an earlier run is still in flight, the batch
    numbers are exactly 1, 2, ..., count in every state reached, whatever
    the outcomes of the calls; an event that does not start a run leaves
    the existing batches in place and adds at most one batch at the end,
    and a batch added at the end is numbered 1 + the number of batches
    before it. *)
Theorem batch_numbers_consecutive (trace : list Event) (ev : Event) :
  runsDoNotOverlap initialWorld (trace ++ [ev]) = true →
  let w := run initialWorld trace in
  let w' := step w ev in
  batchNumbers w = seq 1 (length (mcqBatches (state w)))
  ∧ batchNumbers w' = seq 1 (length (mcqBatches (state w')))
  ∧ (startsRun ev = false →
     mcqBatches (state w) `prefix_of` mcqBatches (state w')
     ∧ (length (mcqBatches (state w')) ≤ S (length (mcqBatches (state w))))%nat)
  ∧ (∀ b, mcqBatches (state w') = mcqBatches (state w) ++ [b] →
          batchNumber b = 1 + length (mcqBatches (state w))).
Proof.
  intros Hok w w'.
  apply runsDoNotOverlap_snoc in Hok as [Htrace Hev].
  pose proof (run_batchInv trace initialWorld initial_batchInv Htrace) as Hinv.
  fold w in Hinv, Hev.
  destruct (step_batchInv w Hinv ev Hev) as [Hinv' Hgrow]. fold w' in Hinv', Hgrow.
  destruct Hinv as [Hnum _]. destruct Hinv' as [Hnum' _].
  split; [exact Hnum |]. split; [exact Hnum' |]. split; [exact Hgrow |].
  intros b Hb. unfold batchNumbers in Hnum'.
  rewrite Hb, map_app, length_app in Hnum'. simpl in Hnum'.
  rewrite seq_snoc in Hnum'. apply app_inj_tail in Hnum' as [_ Hlast]. lia.
Qed.

Lemma batch_numbers_consecutive_witness :
  let w := run initialWorld Sample.extensionRequested in
  let w' := step w (Settle 3 (McqBody (Fulfilled (Sample.mcq [Sample.ask 2 "q2"])))) in
  batchNumbers w = seq 1 (length (mcqBatches (state w)))
  ∧ batchNumbers w' = seq 1 (length (mcqBatches (state w')))
  ∧ mcqBatches (state w) `prefix_of` mcqBatches (state w').
Proof.
  intros w w'.
  destruct (batch_numbers_consecutive Sample.extensionRequested
              (Settle 3 (McqBody (Fulfilled (Sample.mcq [Sample.ask 2 "q2"])))))
    as (H1 & H2 & H3 & _); [vm_compute; reflexivity |].
  split; [exact H1 | split; [exact H2 | apply H3; reflexivity]].
Defined.

(** ** Further properties of the code *)

Import GeminiText Behaviour.

(** *** [parseJSONSafely]: removing the code fences *)

Lemma prefix_empty (s : string) : String.prefix "" s = true.
Proof. by destruct s. Qed.

Lemma removeAll_fence_match (t : string) :
  removeAll "```" (String "`" (String "`" (String "`" t))) = removeAll "```" t.
Proof. by destruct t. Qed.

Lemma removeAll_no_match (pat : string) (c : ascii) (t : string) :
  String.prefix pat (String c t) = false →
  removeAll pat (String c t) = String c (removeAll pat t).
Proof. intros H. unfold removeAll. cbn [removeAll_from]. by rewrite H. Qed.

Lemma prefix_fence (s : string) :
  String.prefix "```" s = true → ∃ t, s = String "`" (String "`" (String "`" t)).
Proof.
  destruct s as [|a [|b [|c t]]]; cbn [String.prefix]; try done;
    repeat (match goal with |- context [ascii_dec ?x ?y] => destruct (ascii_dec x y) end;
            try done).
  subst. eauto.
Qed.

(** Induction along the scan of [removeAll "```"]. *)
Lemma fence_scan_ind (P : string → Prop) :
  P EmptyString →
  (∀ t, P t → P (String "`" (String "`" (String "`" t)))) →
  (∀ c t, String.prefix "```" (String c t) = false → P t → P (String c t)) →
  ∀ s, P s.
Proof.
  intros Hnil Hmatch Hskip s.
  assert (Hall : ∀ n s, (String.length s ≤ n)%nat → P s).
  { clear s. induction n as [|n IH]; intros s Hn.
    - destruct s; [done | simpl in Hn; lia].
    - destruct s as [|c t]; [done |].
      destruct (String.prefix "```" (String c t)) eqn:Hp.
      + destruct (prefix_fence _ Hp) as [t' Heq]. injection Heq as -> ->.
        apply Hmatch, IH. simpl in Hn. lia.
      + apply Hskip; [done |]. apply IH. simpl in Hn. lia. }
  by apply (Hall (String.length s)).
Qed.

Lemma removeAll_fence_starts_1 (s : string) :
  String.prefix "`" (removeAll "```" s) = true → String.prefix "`" s = true.
Proof.
  induction s as [| t IH | c t Hp IH] using fence_scan_ind; [done | done |].
  rewrite (removeAll_no_match _ _ _ Hp). cbn [String.prefix].
  rewrite !prefix_empty. by destruct (ascii_dec _ c).
Qed.

Lemma removeAll_fence_starts_2 (s : string) :
  String.prefix "``" (removeAll "```" s) = true → String.prefix "``" s = true.
Proof.
  induction s as [| t IH | c t Hp IH] using fence_scan_ind; [done | done |].
  rewrite (removeAll_no_match _ _ _ Hp).
  change (String.prefix "``" (String c ?r))
    with (if ascii_dec "`" c then String.prefix "`" r else false).
  destruct (ascii_dec _ c); [| done]. apply removeAll_fence_starts_1.
Qed.

Lemma removeAll_fence_gone (s : string) : includes "```" (removeAll "```" s) = false.
Proof.
  induction s as [| t IH | c t Hp IH] using fence_scan_ind; [done | |].
  - by rewrite removeAll_fence_match.
  - rewrite (removeAll_no_match _ _ _ Hp).
    change (includes "```" (String c ?r))
      with (String.prefix "```" (String c r) || includes "```" r).
    rewrite IH, orb_false_r.
    destruct (String.prefix "```" (String c (removeAll "```" t))) eqn:Hr; [| done].
    exfalso. revert Hr Hp.
    change (String.prefix "```" (String c ?r))
      with (if ascii_dec "`" c then String.prefix "``" r else false).
    destruct (ascii_dec _ c); [| done].
    intros Hr Hp. apply removeAll_fence_starts_2 in Hr. congruence.
Qed.

Lemma append_cons (x : ascii) (a b : string) : String x a +:+ b = String x (a +:+ b).
Proof. reflexivity. Qed.

Lemma append_empty_l (b : string) : EmptyString +:+ b = b.
Proof. reflexivity. Qed.

Lemma append_assoc (a b c : string) : (a +:+ b) +:+ c = a +:+ (b +:+ c).
Proof.
  induction a as [|x a IH]; [done |]. by rewrite !append_cons, IH.
Qed.

Lemma prefix_append_l (p a w : string) :
  String.prefix p a = true → String.prefix p (a +:+ w) = true.
Proof.
  revert a. induction p as [|x p IH]; intros a; [intros _; apply prefix_empty |].
  destruct a as [|y a]; [done |]. rewrite append_cons. cbn [String.prefix].
  destruct (ascii_dec x y); [apply IH | done].
Qed.

Lemma includes_append_l (p a w : string) :
  includes p a = true → includes p (a +:+ w) = true.
Proof.
  induction a as [|y a IH].
  - cbn [includes]. rewrite orb_false_r. intros Hp. rewrite append_empty_l.
    destruct p; [| done]. destruct w; cbn [includes]; by rewrite prefix_empty.
  - intros H. rewrite append_cons. cbn [includes] in H |- *.
    apply orb_true_iff in H as [Hp | Hin].
    + rewrite <- append_cons. by rewrite (prefix_append_l _ _ _ Hp).
    + by rewrite (IH Hin), orb_true_r.
Qed.

Lemma includes_tail (p : string) (c : ascii) (t : string) :
  includes p (String c t) = false → includes p t = false.
Proof. cbn [includes]. by intros [_ ?]%orb_false_iff. Qed.

(** For a one-character pattern, [includes] distributes over
    concatenation. *)
Lemma includes_tick_append (a b : string) :
  includes "`" (a +:+ b) = includes "`" a || includes "`" b.
Proof.
  induction a as [|y a IH]; [done |].
  rewrite append_cons. cbn [includes String.prefix]. rewrite IH, !prefix_empty.
  by destruct (ascii_dec "`" y).
Qed.

Lemma removeAll_without_tick (pat : string) (s : string) :
  includes "`" s = false → removeAll (String "`" pat) s = s.
Proof.
  induction s as [|c t IH]; [done |]. intros Hs.
  rewrite removeAll_no_match.
  - by rewrite (IH (includes_tail _ _ _ Hs)).
  - revert Hs. cbn [includes String.prefix]. rewrite prefix_empty.
    by destruct (ascii_dec "`" c).
Qed.

Lemma removeAll_json_head (rest : string) :
  removeAll "```json" ("```json" +:+ rest) = removeAll "```json" rest.
Proof. by destruct rest. Qed.

Lemma removeAll_json_tail (x : string) :
  includes "`" x = false → removeAll "```json" (x +:+ "```") = x +:+ "```".
Proof.
  induction x as [|c t IH]; [done |]. intros Hs. rewrite append_cons.
  rewrite removeAll_no_match.
  - by rewrite (IH (includes_tail _ _ _ Hs)).
  - revert Hs. cbn [includes String.prefix]. rewrite prefix_empty.
    by destruct (ascii_dec "`" c).
Qed.

Lemma removeAll_fence_tail (x : string) :
  includes "`" x = false → removeAll "```" (x +:+ "```") = x.
Proof.
  induction x as [|c t IH]; [done |]. intros Hs. rewrite append_cons.
  rewrite removeAll_no_match.
  - by rewrite (IH (includes_tail _ _ _ Hs)).
  - revert Hs. cbn [includes String.prefix]. rewrite prefix_empty.
    by destruct (ascii_dec "`" c).
Qed.

Section ParseProperties.
Context {J : Type} (JSON_parse : string → option J) (isWhiteSpace : ascii → bool).

Lemma includes_trimStart (p s : string) :
  includes p s = false → includes p (trimStart isWhiteSpace s) = false.
Proof.
  induction s as [|c t IH]; [done |]. intros Hs. cbn [trimStart].
  destruct (isWhiteSpace c); [| done]. by apply IH, (includes_tail p c).
Qed.

Lemma trimEnd_is_prefix (s : string) : ∃ w, s = trimEnd isWhiteSpace s +:+ w.
Proof.
  induction s as [|c t [w IH]]; [by exists EmptyString |]. cbn [trimEnd].
  destruct (trimEnd isWhiteSpace t) as [|k kept] eqn:Ht.
  - destruct (isWhiteSpace c); [by exists (String c t) | by exists t].
  - exists w. rewrite append_cons. by rewrite <- IH.
Qed.

Lemma includes_trimEnd (p s : string) :
  includes p s = false → includes p (trimEnd isWhiteSpace s) = false.
Proof.
  intros Hs. destruct (includes p (trimEnd isWhiteSpace s)) eqn:Hin; [| done].
  destruct (trimEnd_is_prefix s) as [w Hw].
  apply (includes_append_l _ _ w) in Hin. congruence.
Qed.

Lemma trimEnd_white_tail (c : ascii) (x : string) :
  isWhiteSpace c = true →
  trimEnd isWhiteSpace (x +:+ String c EmptyString) = trimEnd isWhiteSpace x.
Proof.
  intros Hc. induction x as [|a x IH].
  - rewrite append_empty_l. cbn [trimEnd]. by rewrite Hc.
  - rewrite append_cons. cbn [trimEnd]. by rewrite IH.
Qed.

Lemma trim_white_tail (c : ascii) (x : string) :
  isWhiteSpace c = true →
  trim isWhiteSpace (x +:+ String c EmptyString) = trim isWhiteSpace x.
Proof.
  intros Hc. unfold trim. induction x as [|a x IH].
  - rewrite append_empty_l. cbn [trimStart trimEnd]. by rewrite Hc.
  - rewrite append_cons. cbn [trimStart].
    destruct (isWhiteSpace a); [done |].
    rewrite <- append_cons. by apply trimEnd_white_tail.
Qed.

Lemma trim_white_head (c : ascii) (x : string) :
  isWhiteSpace c = true → trim isWhiteSpace (String c x) = trim isWhiteSpace x.
Proof. intros Hc. unfold trim. cbn [trimStart]. by rewrite Hc. Qed.

(** X1: the text [parseJSONSafely] hands to [JSON.parse] never contains a
    code fence, whatever the model returned. *)
Theorem cleaned_has_no_fence (text : string) :
  includes "```" (cleaned isWhiteSpace text) = false.
Proof.
  unfold cleaned, trim. apply includes_trimEnd, includes_trimStart, removeAll_fence_gone.
Qed.

(** X2: a payload without back-ticks that arrives wrapped in a fence
    (opened by "```json" or by "```", each fence on a line of its own) is
    parsed exactly like the bare payload. *)
Theorem fenced_payload_parses_like_bare (body : string) :
  isWhiteSpace "010"%char = true →
  includes "`" body = false →
  parseJSONSafely JSON_parse isWhiteSpace
    ("```json" +:+ nl +:+ body +:+ nl +:+ "```")
  = parseJSONSafely JSON_parse isWhiteSpace body
  ∧ parseJSONSafely JSON_parse isWhiteSpace ("```" +:+ nl +:+ body +:+ nl +:+ "```")
    = parseJSONSafely JSON_parse isWhiteSpace body.
Proof.
  intros Hnl Hbody.
  assert (Hinner : includes "`" (nl +:+ body +:+ nl) = false).
  { rewrite !includes_tick_append, Hbody. reflexivity. }
  assert (Hbare : cleaned isWhiteSpace body = trim isWhiteSpace body).
  { unfold cleaned.
    by rewrite (removeAll_without_tick _ body Hbody), (removeAll_without_tick _ body Hbody). }
  assert (Htrim : trim isWhiteSpace (nl +:+ body +:+ nl) = trim isWhiteSpace body).
  { unfold nl. rewrite append_cons, append_empty_l, trim_white_head by done.
    by rewrite trim_white_tail. }
  assert (Hjson : removeAll "```json" ((nl +:+ body +:+ nl) +:+ "```")
                  = (nl +:+ body +:+ nl) +:+ "```") by (by apply removeAll_json_tail).
  unfold parseJSONSafely. rewrite Hbare. split.
  - unfold cleaned. rewrite removeAll_json_head.
    replace (nl +:+ body +:+ nl +:+ "```") with ((nl +:+ body +:+ nl) +:+ "```")
      by (by rewrite !append_assoc).
    by rewrite Hjson, removeAll_fence_tail, Htrim.
  - unfold cleaned.
    replace ("```" +:+ nl +:+ body +:+ nl +:+ "```")
      with ("```" +:+ ((nl +:+ body +:+ nl) +:+ "```")) by (by rewrite !append_assoc).
    rewrite !append_cons, append_empty_l.
    rewrite !(removeAll_no_match "```json") by (unfold nl; by rewrite append_cons).
    rewrite Hjson, removeAll_fence_match, removeAll_fence_tail by done.
    by rewrite Htrim.
Qed.
End ParseProperties.

Lemma fenced_payload_parses_like_bare_witness :
  parseJSONSafely Runtime.braceParse asciiWhiteSpace ("```json" +:+ nl +:+ "{}" +:+ nl +:+ "```")
  = parseJSONSafely Runtime.braceParse asciiWhiteSpace "{}"
  ∧ parseJSONSafely Runtime.braceParse asciiWhiteSpace "{}" = Fulfilled "{}".
Proof.
  split; [| reflexivity].
  apply (fenced_payload_parses_like_bare Runtime.braceParse asciiWhiteSpace "{}");
    reflexivity.
Defined.

(** *** A response that cannot be parsed *)

Section MalformedResponse.
Context {J : Type} (JSON_parse : string → option J) (isWhiteSpace : ascii → bool).
Context (asOcrData : J → OcrData) (asMasterNote : J → MasterNote)
  (asCards : J → option (list Flashcard)).

(** X3: when the text of the extraction response cannot be parsed (a
    missing or empty text counts as "{}"), the run is aborted with the
    message of [parseJSONSafely] in [error], whatever the parser reported;
    the same failure in the master-note response only clears the notes
    flag, and in the flashcards response it stores the empty list. *)
Theorem unparseable_response_outcomes (w : World) (i : nat) (snapshot : AppState)
    (response : GenerateContentResponse) :
  JSON_parse (cleaned isWhiteSpace (js_or (text response) "{}")) = None →
  let body := jsonBody JSON_parse isWhiteSpace (Fulfilled response) in
  (pending w !! i = Some (AwaitExtract snapshot) →
   let w' := step w (Settle i (OcrBody (mapSettled asOcrData body))) in
   error (state w') = Some parseFailed
   ∧ processing (state w') = false
   ∧ loadingStates w' = Loading.allClear
   ∧ calls w' = calls w)
  ∧ (pending w !! i = Some AwaitMasterNote →
     let w' := step w (Settle i (NoteBody (mapSettled asMasterNote body))) in
     state w' = state w
     ∧ Loading.notes (loadingStates w') = false
     ∧ alerts w' = alerts w)
  ∧ (pending w !! i = Some AwaitFlashcards →
     let w' := step w (Settle i (CardsBody (mapSettled asCards body))) in
     flashcards (state w') = []
     ∧ error (state w') = error (state w)
     ∧ Loading.flashcards (loadingStates w') = false).
Proof.
  intros Hparse body.
  assert (Hbody : body = Rejected {| message := Some parseFailed |}).
  { subst body. unfold jsonBody, parseJSONSafely. by rewrite Hparse. }
  rewrite Hbody. split; [| split]; intros Hp w'; subst w';
    (erewrite step_settle; [| exact Hp | reflexivity]); simpl; repeat split.
Qed.
End MalformedResponse.

Lemma unparseable_response_outcomes_witness :
  let w := handleGenerate Sample.uploadedWorld in
  let w' :=
    step w (Settle 0 (OcrBody (mapSettled Runtime.noFields
              (jsonBody Runtime.braceParse asciiWhiteSpace
                 (Fulfilled {| text := Some "Sorry, I cannot read that." |}))))) in
  error (state w') = Some parseFailed
  ∧ processing (state w') = false
  ∧ loadingStates w' = Loading.allClear
  ∧ calls w' = calls w.
Proof.
  intros w w'.
  apply (unparseable_response_outcomes Runtime.braceParse asciiWhiteSpace Runtime.noFields
           (λ _, Sample.noteOne) (λ _, None) w 0 (state Sample.uploadedWorld)
           {| text := Some "Sorry, I cannot read that." |});
    vm_compute; reflexivity.
Defined.

(** *** The payload of a data URL *)

Lemma includes_comma_head (c : ascii) (t : string) :
  includes "," (String c t) = false → Ascii.eqb c "," = false ∧ includes "," t = false.
Proof.
  cbn [includes String.prefix]. rewrite prefix_empty.
  destruct (ascii_dec "," c) as [<- | Hne]; [done |].
  intros H. split; [| done]. apply Ascii.eqb_neq. congruence.
Qed.

Lemma splitOn_without_comma (s : string) :
  includes "," s = false → splitOn "," s = [s].
Proof.
  induction s as [|c t IH]; [done |].
  intros [Hc Ht]%includes_comma_head. cbn [splitOn]. by rewrite Hc, (IH Ht).
Qed.

Lemma splitOn_at_first_comma (a b : string) :
  includes "," a = false → splitOn "," (a +:+ "," +:+ b) = a :: splitOn "," b.
Proof.
  induction a as [|c t IH]; [done |].
  intros [Hc Ht]%includes_comma_head. rewrite append_cons. cbn [splitOn].
  by rewrite Hc, (IH Ht).
Qed.

(** X4: the image data sent to the model is the part of a data URL after
    its comma; a string without comma is sent as it is, and so is a data
    URL whose payload is empty. *)
Theorem imagePayload_of_data_url (header data : string) :
  includes "," header = false →
  includes "," data = false →
  (data ≠ EmptyString → imagePayload (header +:+ "," +:+ data) = data)
  ∧ imagePayload (header +:+ ",") = header +:+ ","
  ∧ imagePayload data = data.
Proof.
  intros Hh Hd. unfold imagePayload. split; [| split].
  - intros Hne. rewrite (splitOn_at_first_comma _ _ Hh), (splitOn_without_comma _ Hd).
    simpl. by destruct (String.eqb_spec data "").
  - replace (header +:+ ",") with (header +:+ "," +:+ "") by done.
    by rewrite (splitOn_at_first_comma _ _ Hh).
  - by rewrite (splitOn_without_comma _ Hd).
Qed.

Lemma imagePayload_of_data_url_witness :
  imagePayload ("data:image/jpeg;base64" +:+ "," +:+ "AAAA") = "AAAA"
  ∧ imagePayload ("data:image/jpeg;base64" +:+ ",") = "data:image/jpeg;base64" +:+ ","
  ∧ imagePayload "AAAA" = "AAAA".
Proof.
  destruct (imagePayload_of_data_url "data:image/jpeg;base64" "AAAA")
    as (H1 & H2 & H3); [reflexivity | reflexivity |].
  split; [apply H1; discriminate | split; [exact H2 | exact H3]].
Defined.

(** *** The derivations *)

(** X5: [generateFlashcards] resolves for every outcome of its [try]
    body; when the call or the parse fails, or the payload has no
    [cards], it resolves with the empty list, which then replaces the
    flashcards the session held. *)
Theorem generateFlashcards_always_resolves (w : World) (i : nat)
    (body : Settled (option (list Flashcard))) :
  pending w !! i = Some AwaitFlashcards →
  let w' := step w (Settle i (CardsBody body)) in
  (∃ cards, generateFlashcards body = Fulfilled cards
            ∧ flashcards (state w') = cards)
  ∧ ((∃ e, body = Rejected e) ∨ body = Fulfilled None → flashcards (state w') = [])
  ∧ Loading.flashcards (loadingStates w') = false
  ∧ error (state w') = error (state w)
  ∧ alerts w' = alerts w.
Proof.
  intros Hp w'. subst w'. erewrite step_settle; [| exact Hp | reflexivity].
  destruct body as [[cards |] | e]; simpl; (split; [eexists; split; reflexivity |]);
    (split; [| done]).
  - intros [[e He] | He]; discriminate.
  - done.
  - done.
Qed.

Lemma generateFlashcards_always_resolves_witness :
  let w := run initialWorld Sample.firstRunExtracted in
  let w' := step w (Settle 3 (CardsBody (Fulfilled (Some Sample.cards)))) in
  pending w !! 3 = Some AwaitFlashcards
  ∧ flashcards (state w') = Sample.cards.
Proof.
  intros w w'.
  destruct (generateFlashcards_always_resolves w 3 (Fulfilled (Some Sample.cards)))
    as [(cards & Hc & Hf) _]; [vm_compute; reflexivity |].
  split; [vm_compute; reflexivity |].
  injection Hc as <-. exact Hf.
Defined.

(** X6: whatever the outcomes of the four derivations and whatever the
    order in which they settle, each artifact depends on the outcome of
    its own call alone (replaced on success, kept on failure), the four
    flags are cleared, and [ocrResult] and [error] are not touched. *)
Theorem derivations_settle_independently (w : World) (note : Settled MasterNote)
    (response : Settled GenerateContentResponse) (batch : Settled McqData)
    (cards : Settled (option (list Flashcard))) (order : list Completion) :
  Permutation order
    [NoteDone note; SummaryDone response; BatchDone batch; CardsDone cards] →
  let final := completeAll w order in
  masterNote (state final)
  = match generateMasterNote note with
    | Fulfilled n => Some n
    | Rejected _ => masterNote (state w)
    end
  ∧ summary (state final)
    = match generateSummary response with
      | Fulfilled s => Some s
      | Rejected _ => summary (state w)
      end
  ∧ mcqBatches (state final)
    = match generateMCQBatch batch with
      | Fulfilled r => [firstBatch r]
      | Rejected _ => mcqBatches (state w)
      end
  ∧ flashcards (state final)
    = match generateFlashcards cards with
      | Fulfilled l => l
      | Rejected _ => flashcards (state w)
      end
  ∧ ocrResult (state final) = ocrResult (state w)
  ∧ error (state final) = error (state w)
  ∧ loadingStates final
    = Loading.set_flashcards false
        (Loading.set_practice false
           (Loading.set_summary false (Loading.set_notes false (loadingStates w)))).
Proof.
  intros Hperm final. subst final.
  rewrite (completeAll_permutation _ _ Hperm).
  2: { pose proof (Permutation_map artifact Hperm) as Hmap. rewrite Hmap.
       simpl. by apply (bool_decide_unpack _). }
  unfold completeAll.
  destruct note as [?|?], response as [?|?], batch as [?|?], cards as [?|?];
    simpl; repeat split.
Qed.

Lemma derivations_settle_independently_witness :
  let w := run initialWorld Sample.firstRunExtracted in
  let final :=
    completeAll w
      [ SummaryDone (Fulfilled {| text := Some "short" |});
        NoteDone (Rejected Sample.unavailable);
        BatchDone (Fulfilled (Sample.mcq [Sample.ask 1 "q1"]));
        CardsDone (Fulfilled (Some Sample.cards)) ] in
  masterNote (state final) = masterNote (state w)
  ∧ summary (state final) = Some "short"
  ∧ error (state final) = error (state w).
Proof.
  intros w final.
  destruct (derivations_settle_independently w (Rejected Sample.unavailable)
              (Fulfilled {| text := Some "short" |})
              (Fulfilled (Sample.mcq [Sample.ask 1 "q1"]))
              (Fulfilled (Some Sample.cards))
              [ SummaryDone (Fulfilled {| text := Some "short" |});
                NoteDone (Rejected Sample.unavailable);
                BatchDone (Fulfilled (Sample.mcq [Sample.ask 1 "q1"]));
                CardsDone (Fulfilled (Some Sample.cards)) ])
    as (Hn & Hs & _ & _ & _ & He & _); [apply perm_swap |].
  split; [exact Hn | split; [exact Hs | exact He]].
Defined.

(** X7: the four derivation calls are issued when the extraction
    succeeds, in the order master note, summary, first batch,
    flashcards, with the extracted text and the language the session had
    when the run was started, even if the language has been switched
    since; the summary call is also given the first 1000 characters of
    the text, the batch call the number 1 and an empty context. *)
Theorem derivations_use_language_of_click (w later : World) (j : nat) (data : OcrData) :
  pending later !! j = Some (AwaitExtract (state w)) →
  let ocr := {| ocrText := js_or (data_ocrText data) "";
                subject := default UNKNOWN (data_subject data) |} in
  let extracted := step later (Settle j (OcrBody (Fulfilled data))) in
  calls extracted = calls later ++ derivationCalls ocr (language (state w))
  ∧ pending extracted
    = delete j (pending later)
      ++ [AwaitMasterNote; AwaitSummary; AwaitMCQBatch; AwaitFlashcards]
  ∧ ocrResult (state extracted) = Some ocr
  ∧ language (state extracted) = language (state later).
Proof.
  intros Hp ocr extracted. subst extracted.
  erewrite step_settle; [| exact Hp | reflexivity].
  simpl. rewrite <- !app_assoc. repeat split.
Qed.

Lemma derivations_use_language_of_click_witness :
  let w := Sample.uploadedWorld in
  let later := step (handleGenerate w) ClickLanguage in
  let extracted := step later (Settle 0 (OcrBody (Fulfilled Sample.ocrOne))) in
  language (state w) = BN
  ∧ language (state extracted) = EN
  ∧ calls extracted
    = calls later
      ++ derivationCalls {| ocrText := "first chapter"; subject := MATH |} BN.
Proof.
  intros w later extracted.
  destruct (derivations_use_language_of_click w later 0 Sample.ocrOne)
    as (Hcalls & _ & _ & Hlang); [vm_compute; reflexivity |].
  split; [reflexivity | split; [exact Hlang | exact Hcalls]].
Defined.

(** *** What the service is asked *)

Lemma resume_calls (p : Pending) (o : Outcome) (k : World → World) (w : World) :
  resume p o = Some k →
  ∃ new, calls (k w) = calls w ++ new ∧ Forall (carriesCurrentText (k w)) new.
Proof.
  destruct p, o; simpl; try discriminate; intros [= <-].
  - exists []. unfold handleClarify_resume. destruct body; simpl; by rewrite app_nil_r.
  - exists []. unfold handleMoreBonus_resume.
    destruct response; simpl; by rewrite app_nil_r.
  - exists []. unfold handleGenerateMoreMCQs_resume. destruct body as [d|e]; simpl.
    + destruct (0 <? _)%nat; simpl; by rewrite app_nil_r.
    + by rewrite app_nil_r.
  - exists []. unfold handleFileUpload_resume.
    destruct (promiseAll _); simpl; by rewrite app_nil_r.
  - unfold handleGenerate_resume. destruct body as [d|e]; simpl.
    + eexists. split; [by rewrite <- !app_assoc |].
      repeat constructor; intros t [= <-]; eexists; split; reflexivity.
    + exists []. by rewrite app_nil_r.
  - exists []. unfold onMasterNote. destruct body; simpl; by rewrite app_nil_r.
  - exists []. unfold onSummary. destruct response; simpl; by rewrite app_nil_r.
  - exists []. unfold onMCQBatch. destruct body; simpl; by rewrite app_nil_r.
  - exists []. unfold onFlashcards. destruct body; simpl; by rewrite app_nil_r.
Qed.

(** X8: an event only adds calls at the end of the log, and every call
    that is given an extracted text (master note, summary, MCQ batch,
    flashcards, more bonus) is given the text of the extraction result
    the session holds when the call is issued. *)
Theorem calls_carry_current_text (w : World) (ev : Event) :
  ∃ new, calls (step w ev) = calls w ++ new
         ∧ Forall (carriesCurrentText (step w ev)) new.
Proof.
  unfold step. destruct (enabled w ev) eqn:Hen; [| exists []; by rewrite app_nil_r].
  destruct ev; simpl;
    try (exists []; split; [by rewrite app_nil_r | constructor]).
  - unfold handleMouseUp.
    repeat match goal with |- context [if ?c then _ else _] => destruct c end;
      try destruct anchorText; exists []; by rewrite app_nil_r.
  - unfold handleClarify. destruct (selection w); [| exists []; by rewrite app_nil_r].
    eexists. split; [reflexivity |]. by repeat constructor.
  - unfold handleFileUpload.
    repeat match goal with |- context [if ?c then _ else _] => destruct c end;
      exists []; by rewrite app_nil_r.
  - unfold handleGenerate. destruct (bool_decide _); [exists []; by rewrite app_nil_r |].
    eexists. split; [reflexivity |]. by repeat constructor.
  - unfold handleGenerate. destruct (bool_decide _); [exists []; by rewrite app_nil_r |].
    eexists. split; [reflexivity |]. by repeat constructor.
  - unfold handleMoreBonus.
    destruct (ocrResult (state w)) as [ocr|] eqn:Hocr;
      [| exists []; by rewrite app_nil_r].
    destruct (masterNote (state w)); [| exists []; by rewrite app_nil_r].
    eexists. split; [reflexivity |].
    repeat constructor. intros t [= <-]. exists ocr. by split.
  - unfold handleGenerateMoreMCQs.
    destruct (ocrResult (state w)) as [ocr|] eqn:Hocr;
      [| exists []; by rewrite app_nil_r].
    eexists. split; [reflexivity |].
    repeat constructor. intros t [= <-]. exists ocr. by split.
  - destruct (currentQuestion w); exists []; by rewrite app_nil_r.
  - destruct (pending w !! i) as [p|]; [| exists []; by rewrite app_nil_r].
    destruct (resume p o) as [k|] eqn:Hk; [| exists []; by rewrite app_nil_r].
    destruct (resume_calls p o k (set_pending (delete i (pending w)) w) Hk)
      as (new & Hnew & Hall).
    exists new. split; [exact Hnew | exact Hall].
Qed.

(** *** The blocking extraction *)

Lemma extractions_app (l : list Pending) (p : Pending) :
  extractions (l ++ [p]) = extractions l ++ (if isExtract p then [p] else []).
Proof.
  unfold extractions. rewrite filter_app. f_equal.
  destruct (isExtract p) eqn:Hp.
  - by rewrite filter_cons_True.
  - rewrite filter_cons_False; [done | by rewrite Hp].
Qed.

Lemma extractions_delete_other (l : list Pending) (i : nat) (p : Pending) :
  l !! i = Some p → isExtract p = false → extractions (delete i l) = extractions l.
Proof.
  revert i. induction l as [|x l IH]; intros [|i] Hp Hw; simpl in *; try done.
  - injection Hp as ->. unfold extractions.
    rewrite filter_cons_False; [done | by rewrite Hw].
  - unfold extractions in *. rewrite !filter_cons. by rewrite (IH i Hp Hw).
Qed.

Lemma extractions_delete_only (l : list Pending) (i : nat) (p : Pending) :
  l !! i = Some p → isExtract p = true → (length (extractions l) ≤ 1)%nat →
  extractions (delete i l) = [].
Proof.
  revert i. induction l as [|x l IH]; intros [|i] Hp Hw Hlen; simpl in *; try done.
  - injection Hp as ->. unfold extractions in *.
    rewrite filter_cons_True in Hlen by done. simpl in Hlen.
    destruct (filter _ l); [done | simpl in Hlen; lia].
  - unfold extractions in *. rewrite filter_cons in Hlen |- *.
    destruct (decide (isExtract x = true)) as [Hx | Hx].
    + exfalso. simpl in Hlen.
      assert (Hin : p ∈ filter (λ p, isExtract p = true) l).
      { apply list_elem_of_filter. split; [done |]. by eapply list_elem_of_lookup_2. }
      destruct (filter _ l); [by apply elem_of_nil in Hin | simpl in Hlen; lia].
    + by apply IH.
Qed.

Lemma extractionInv_short (w : World) :
  extractionInv w → (length (extractions (pending w)) ≤ 1)%nat.
Proof.
  unfold extractionInv. destruct (extractions (pending w)) as [|p [|q l]]; simpl; [lia | lia | done].
Qed.

Lemma extractionInv_idle (w : World) : extractions (pending w) = [] → extractionInv w.
Proof. unfold extractionInv. by intros ->. Qed.

Lemma extractionInv_frame (w w' : World) :
  processing (state w') = processing (state w) →
  ocrResult (state w) = None → ocrResult (state w') = None →
  (truthy (error (state w)) = false → truthy (error (state w')) = false) →
  extractions (pending w') = extractions (pending w) →
  extractionInv w → extractionInv w'.
Proof.
  unfold extractionInv. intros Hp Ho Ho' He ->.
  destruct (extractions (pending w)) as [|p [|q l]]; [done | | done].
  rewrite Hp, Ho'. intros (? & _ & ?). auto.
Qed.

(** While an extraction is suspended the upload, error and results
    views are not rendered. *)
Lemma extracting_hides_views (w : World) :
  extractionInv w → extractions (pending w) ≠ [] →
  processing (state w) = true ∧ ocrResult (state w) = None
  ∧ uploadView w = false ∧ errorView w = false ∧ resultsView w = false.
Proof.
  unfold extractionInv, uploadView, errorView, resultsView.
  destruct (extractions (pending w)) as [|p [|q l]]; [done | | done].
  intros (-> & -> & ->) _. simpl. done.
Qed.

Lemma resume_keeps_screen (p : Pending) (o : Outcome) (k : World → World) (w : World) :
  resume p o = Some k → isExtract p = false →
  processing (state (k w)) = processing (state w)
  ∧ ocrResult (state (k w)) = ocrResult (state w)
  ∧ (truthy (error (state w)) = false → truthy (error (state (k w))) = false)
  ∧ pending (k w) = pending w.
Proof.
  destruct p, o; simpl; try discriminate; intros [= <-] _.
  - unfold handleClarify_resume. by destruct body.
  - unfold handleMoreBonus_resume. destruct response as [r|e]; simpl; [| done].
    unfold appendBonus. by destruct (masterNote (state w)).
  - unfold handleGenerateMoreMCQs_resume. destruct body as [d|e]; simpl; [| done].
    by destruct (0 <? _)%nat.
  - unfold handleFileUpload_resume. by destruct (promiseAll _).
  - unfold onMasterNote. by destruct body.
  - unfold onSummary. by destruct response.
  - unfold onMCQBatch. by destruct body.
  - unfold onFlashcards. by destruct body.
Qed.

Lemma step_extractionInv (w : World) (ev : Event) :
  extractionInv w → extractionInv (step w ev).
Proof.
  intros Hinv. unfold step. destruct (enabled w ev) eqn:Hen; [| done].
  destruct (extractions (pending w)) as [|p0 l0] eqn:Hex.
  - (* no extraction is suspended *)
    destruct ev; simpl; try (apply extractionInv_idle; exact Hex).
    + unfold handleMouseUp.
      repeat match goal with |- context [if ?c then _ else _] => destruct c end;
        try destruct anchorText; apply extractionInv_idle; exact Hex.
    + unfold handleClarify. destruct (selection w); apply extractionInv_idle;
        simpl; rewrite ?extractions_app, ?Hex; done.
    + unfold handleFileUpload.
      repeat match goal with |- context [if ?c then _ else _] => destruct c end;
        apply extractionInv_idle; simpl; rewrite ?extractions_app, ?Hex; done.
    + unfold handleGenerate. destruct (bool_decide _); [done |].
      unfold extractionInv. simpl. rewrite extractions_app, Hex. simpl. done.
    + unfold handleGenerate. destruct (bool_decide _); [done |].
      unfold extractionInv. simpl. rewrite extractions_app, Hex. simpl. done.
    + unfold handleMoreBonus.
      destruct (ocrResult (state w)), (masterNote (state w)); apply extractionInv_idle;
        simpl; rewrite ?extractions_app, ?Hex; done.
    + unfold handleGenerateMoreMCQs.
      destruct (ocrResult (state w)); apply extractionInv_idle;
        simpl; rewrite ?extractions_app, ?Hex; done.
    + destruct (currentQuestion w); apply extractionInv_idle; exact Hex.
    + destruct (pending w !! i) as [p|] eqn:Hp; [| done].
      destruct (resume p o) as [k|] eqn:Hk; [| done].
      destruct (isExtract p) eqn:Hkind.
      * exfalso. assert (Hin : p ∈ extractions (pending w)).
        { apply list_elem_of_filter. split; [done |]. by eapply list_elem_of_lookup_2. }
        rewrite Hex in Hin. by apply elem_of_nil in Hin.
      * destruct (resume_keeps_screen p o k (set_pending (delete i (pending w)) w) Hk Hkind)
          as (_ & _ & _ & Hpend).
        apply extractionInv_idle. rewrite Hpend. simpl.
        by rewrite (extractions_delete_other _ _ _ Hp Hkind).
  - (* an extraction is suspended: only a few controls are rendered *)
    destruct (extracting_hides_views w Hinv) as (Hproc & Hocr & Hup & Herr & Hres);
      [by rewrite Hex |].
    destruct ev; simpl in Hen |- *;
      unfold masterControls, practiceControls in Hen;
      rewrite ?Hup, ?Herr, ?Hres in Hen; try discriminate;
      try (apply (extractionInv_frame w); done).
    + unfold handleMouseUp.
      repeat match goal with |- context [if ?c then _ else _] => destruct c end;
        try destruct anchorText; apply (extractionInv_frame w); done.
    + unfold handleClarify. destruct (selection w); [| done].
      apply (extractionInv_frame w); try done. simpl.
      by rewrite extractions_app, app_nil_r.
    + destruct (pending w !! i) as [p|] eqn:Hp; [| done].
      destruct (resume p o) as [k|] eqn:Hk; [| done].
      destruct (isExtract p) eqn:Hkind.
      * pose proof (extractions_delete_only _ _ _ Hp Hkind (extractionInv_short w Hinv))
          as Hgone.
        destruct p, o; try discriminate. injection Hk as <-.
        unfold handleGenerate_resume.
        destruct (extractOCRAndSubject body); apply extractionInv_idle; simpl;
          rewrite ?extractions_app, ?Hgone; done.
      * destruct (resume_keeps_screen p o k (set_pending (delete i (pending w)) w) Hk Hkind)
          as (Hp' & Ho' & He' & Hpend).
        apply (extractionInv_frame w); try done.
        -- by rewrite Ho'.
        -- rewrite Hpend. simpl. by apply extractions_delete_other with p.
Qed.

Lemma run_extractionInv (trace : list Event) : extractionInv (run initialWorld trace).
Proof.
  induction trace as [|ev trace IH] using rev_ind; [by apply extractionInv_idle |].
  unfold run in *. rewrite foldl_app. simpl. by apply step_extractionInv.
Qed.

(** X9: in every state a session can reach, at most one extraction is in
    flight; while it is, [processing] is set and [ocrResult] is null, and
    the only controls that accept an event are the tabs, the language
    switch and the clarification ones: no second run, no upload, no
    extension can be started before the extraction settles. *)
Theorem extraction_is_exclusive (trace : list Event) (ev : Event) :
  let w := run initialWorld trace in
  (length (extractions (pending w)) ≤ 1)%nat
  ∧ (extractions (pending w) ≠ [] →
     processing (state w) = true ∧ ocrResult (state w) = None
     ∧ (enabled w ev = true → usableWhileExtracting ev = true)).
Proof.
  intros w. pose proof (run_extractionInv trace) as Hinv. fold w in Hinv.
  split; [by apply extractionInv_short |].
  intros Hne.
  destruct (extracting_hides_views w Hinv Hne) as (Hproc & Hocr & Hup & Herr & Hres).
  split; [done | split; [done |]].
  destruct ev; simpl; try done;
    unfold masterControls, practiceControls; rewrite ?Hup, ?Herr, ?Hres; done.
Qed.

Lemma extraction_is_exclusive_witness :
  let w := run initialWorld [PickFiles [Sample.page "p1"]; Settle 0 FilesRead; ClickGenerate] in
  extractions (pending w) ≠ []
  ∧ processing (state w) = true
  ∧ (enabled w ClickLanguage = true → usableWhileExtracting ClickLanguage = true).
Proof.
  intros w.
  assert (Hne : extractions (pending w) ≠ []) by (vm_compute; discriminate).
  destruct (extraction_is_exclusive
              [PickFiles [Sample.page "p1"]; Settle 0 FilesRead; ClickGenerate]
              ClickLanguage) as (_ & H).
  destruct (H Hne) as (Hproc & _ & Hev).
  split; [exact Hne | split; [exact Hproc | exact Hev]].
Defined.

(** *** A failed extraction *)

(** The continuation of a call other than the extraction issues no call;
    unless it belongs to a derivation or an extension, it writes no
    artifact. *)
Lemma resume_quiet (p : Pending) (o : Outcome) (k : World → World) (w : World) :
  resume p o = Some k → isExtract p = false →
  calls (k w) = calls w
  ∧ (artifactWriter p = false →
     masterNote (state (k w)) = masterNote (state w)
     ∧ summary (state (k w)) = summary (state w)
     ∧ mcqBatches (state (k w)) = mcqBatches (state w)
     ∧ flashcards (state (k w)) = flashcards (state w)).
Proof.
  destruct p, o; simpl; try discriminate; intros [= <-] _.
  - unfold handleClarify_resume. by destruct body.
  - unfold handleMoreBonus_resume. destruct response as [r|e]; simpl; [| done].
    unfold appendBonus. by destruct (masterNote (state w)).
  - unfold handleGenerateMoreMCQs_resume. destruct body as [d|e]; simpl; [| done].
    by destruct (0 <? _)%nat.
  - unfold handleFileUpload_resume. by destruct (promiseAll _).
  - unfold onMasterNote. by destruct body.
  - unfold onSummary. by destruct response.
  - unfold onMCQBatch. by destruct body.
  - unfold onFlashcards. by destruct body.
Qed.

(** One event while the extraction of a run is in flight, other than the
    outcome of the extraction: the extraction stays in flight, no
    derivation call is issued, and when no derivation or extension is
    suspended none appears and no artifact is written. *)
Lemma step_while_extracting (w : World) (ev : Event) (snapshot : AppState) :
  extractionInv w → extractions (pending w) = [AwaitExtract snapshot] →
  settlesExtraction ev = false →
  extractions (pending (step w ev)) = [AwaitExtract snapshot]
  ∧ filter (λ c, is_derivation_call c = true) (calls (step w ev))
    = filter (λ c, is_derivation_call c = true) (calls w)
  ∧ (Forall (λ p, artifactWriter p = false) (pending w) →
     Forall (λ p, artifactWriter p = false) (pending (step w ev))
     ∧ masterNote (state (step w ev)) = masterNote (state w)
     ∧ summary (state (step w ev)) = summary (state w)
     ∧ mcqBatches (state (step w ev)) = mcqBatches (state w)
     ∧ flashcards (state (step w ev)) = flashcards (state w)).
Proof.
  intros Hinv Hex Hev. unfold step. destruct (enabled w ev) eqn:Hen; [| done].
  destruct (extracting_hides_views w Hinv) as (Hproc & Hocr & Hup & Herr & Hres);
    [by rewrite Hex |].
  destruct ev; simpl in Hen |- *;
    unfold masterControls, practiceControls in Hen;
    rewrite ?Hup, ?Herr, ?Hres in Hen; try discriminate;
    try (split; [done | split; [done | by intros ?]]).
  - unfold handleMouseUp.
    repeat match goal with |- context [if ?c then _ else _] => destruct c end;
      try destruct anchorText; (split; [done | split; [done | by intros ?]]).
  - unfold handleClarify.
    destruct (selection w); [| split; [done | split; [done | by intros ?]]]. simpl.
    rewrite extractions_app, Hex, filter_app, filter_cons_False, filter_nil, !app_nil_r
      by done.
    split; [done | split; [done |]]. intros Hquiet.
    split; [| done]. apply Forall_app; split; [done | by repeat constructor].
  - destruct (pending w !! i) as [p|] eqn:Hp; [| split; [done | split; [done | by intros ?]]].
    destruct (resume p o) as [k|] eqn:Hk; [| split; [done | split; [done | by intros ?]]].
    destruct (isExtract p) eqn:Hkind.
    + destruct p, o; discriminate.
    + destruct (resume_keeps_screen p o k (set_pending (delete i (pending w)) w) Hk Hkind)
        as (_ & _ & _ & Hpend).
      destruct (resume_quiet p o k (set_pending (delete i (pending w)) w) Hk Hkind)
        as (Hcalls & Hart).
      rewrite Hpend, Hcalls. simpl.
      rewrite (extractions_delete_other _ _ _ Hp Hkind).
      split; [done | split; [done |]]. intros Hquiet.
      split; [by apply Forall_delete |].
      apply Hart. eapply (proj1 (Forall_lookup _ _) Hquiet); exact Hp.
Qed.

Lemma run_while_extracting (during : list Event) (w : World) (snapshot : AppState) :
  extractionInv w → extractions (pending w) = [AwaitExtract snapshot] →
  Forall (λ ev, settlesExtraction ev = false) during →
  extractionInv (run w during)
  ∧ extractions (pending (run w during)) = [AwaitExtract snapshot]
  ∧ filter (λ c, is_derivation_call c = true) (calls (run w during))
    = filter (λ c, is_derivation_call c = true) (calls w)
  ∧ (Forall (λ p, artifactWriter p = false) (pending w) →
     Forall (λ p, artifactWriter p = false) (pending (run w during))
     ∧ masterNote (state (run w during)) = masterNote (state w)
     ∧ summary (state (run w during)) = summary (state w)
     ∧ mcqBatches (state (run w during)) = mcqBatches (state w)
     ∧ flashcards (state (run w during)) = flashcards (state w)).
Proof.
  revert w. induction during as [|ev during IH]; intros w Hinv Hex Hall; [done |].
  apply Forall_cons in Hall as [Hev Hall].
  destruct (step_while_extracting w ev snapshot Hinv Hex Hev) as (Hex' & Hcalls' & Hquiet').
  destruct (IH (step w ev) (step_extractionInv w ev Hinv) Hex' Hall)
    as (Hinv'' & Hex'' & Hcalls'' & Hquiet'').
  unfold run in *. simpl.
  split; [done | split; [done | split; [by rewrite Hcalls'' |]]].
  intros Hquiet. destruct (Hquiet' Hquiet) as (Hq & Hn & Hs & Hb & Hf).
  destruct (Hquiet'' Hq) as (Hq2 & Hn2 & Hs2 & Hb2 & Hf2).
  by rewrite Hn2, Hs2, Hb2, Hf2.
Qed.

(** C1, as the claim states it, fails: the second run is started while
    the master-note call of the first run is still in flight; the note
    arrives during the second extraction, the extraction then fails, and
    the session ends with [error] set and the master note of the first
    run stored. *)
Lemma stale_note_survives_failed_extraction :
  let started := run initialWorld Sample.secondRunExtracting in
  let after := run initialWorld Sample.secondExtractionFails in
  allEnabled initialWorld Sample.secondExtractionFails = true
  ∧ masterNote (state started) = None
  ∧ error (state after) = Some "503 Service Unavailable"
  ∧ processing (state after) = false
  ∧ loadingStates after = Loading.allClear
  ∧ ocrResult (state after) = None
  ∧ masterNote (state after) = Some Sample.noteOne.
Proof. by vm_compute. Qed.

(** C1 (amended): for every run (a click on "Generate" or "Try Again"
    that finds images, in any state a session can reach), if the
    extraction fails, whatever happens while it is in flight: no
    derivation call is issued from the start of the run to the failure,
    and nothing stays suspended that could issue one; [error] holds a
    non-empty message; [processing] and every loading flag are false;
    [ocrResult] is null; the failure itself writes none of [masterNote],
    [summary], [mcqBatches], [flashcards].  These four are empty after
    the failure when no derivation or extension of an earlier run was in
    flight at the start of the run. *)
Theorem extraction_failure_aborts_run (before during : list Event) (start : Event)
    (j : nat) (snapshot : AppState) (e : JsError) :
  let w0 := run initialWorld before in
  startsRun start = true → enabled w0 start = true → images (state w0) ≠ [] →
  Forall (λ ev, settlesExtraction ev = false) during →
  let w := run (step w0 start) during in
  pending w !! j = Some (AwaitExtract snapshot) →
  let aborted := step w (Settle j (OcrBody (Rejected e))) in
  snapshot = state w0
  ∧ filter (λ c, is_derivation_call c = true) (calls aborted)
    = filter (λ c, is_derivation_call c = true) (calls w0)
  ∧ pending aborted = delete j (pending w)
  ∧ extractions (pending aborted) = []
  ∧ (∃ msg, error (state aborted) = Some msg ∧ msg ≠ ""
            ∧ msg = js_or (message e) analysisFailed)
  ∧ processing (state aborted) = false
  ∧ loadingStates aborted = Loading.allClear
  ∧ ocrResult (state aborted) = None
  ∧ masterNote (state aborted) = masterNote (state w)
  ∧ summary (state aborted) = summary (state w)
  ∧ mcqBatches (state aborted) = mcqBatches (state w)
  ∧ flashcards (state aborted) = flashcards (state w)
  ∧ (Forall (λ p, artifactWriter p = false) (pending w0) →
     masterNote (state aborted) = None
     ∧ summary (state aborted) = None
     ∧ mcqBatches (state aborted) = []
     ∧ flashcards (state aborted) = []).
Proof.
  intros w0 Hstart Hen Himg Hduring w Hj aborted.
  pose proof (run_extractionInv before) as Hinv0. fold w0 in Hinv0.
  assert (Hidle : extractions (pending w0) = []).
  { destruct (extractions (pending w0)) as [|p l] eqn:Hex; [done |].
    destruct (extracting_hides_views w0 Hinv0) as (_ & _ & Hup & Herr & _);
      [by rewrite Hex |].
    destruct start; try discriminate; simpl in Hen; rewrite ?Hup, ?Herr in Hen;
      discriminate. }
  assert (Hgo : step w0 start
                = await (AwaitExtract (state w0))
                    (call (CallExtract (images (state w0)))
                       (setLoadingStates (λ _, Loading.runStarted)
                          (setActiveBatchIndex 0 (setState resetRun w0))))).
  { unfold step. rewrite Hen.
    assert (Hfire : fire w0 start = handleGenerate w0) by (by destruct start).
    rewrite Hfire. unfold handleGenerate.
    by rewrite bool_decide_eq_false_2 by (by destruct (images (state w0))). }
  assert (Hinv1 : extractionInv (step w0 start)) by (by apply step_extractionInv).
  assert (Hex1 : extractions (pending (step w0 start)) = [AwaitExtract (state w0)]).
  { rewrite Hgo. simpl. by rewrite extractions_app, Hidle. }
  destruct (run_while_extracting during (step w0 start) (state w0) Hinv1 Hex1 Hduring)
    as (Hinv & Hex & Hcalls & Hquiet).
  fold w in Hinv, Hex, Hcalls, Hquiet.
  assert (Hsnap : snapshot = state w0).
  { assert (Hin : AwaitExtract snapshot ∈ extractions (pending w)).
    { apply list_elem_of_filter. split; [done |]. by eapply list_elem_of_lookup_2. }
    rewrite Hex in Hin. apply list_elem_of_singleton in Hin. by injection Hin. }
  destruct (extracting_hides_views w Hinv) as (_ & Hocr & _); [by rewrite Hex |].
  subst aborted. erewrite step_settle; [| exact Hj | reflexivity]. simpl.
  split; [exact Hsnap |]. split.
  { rewrite Hcalls, Hgo. simpl.
    by rewrite filter_app, filter_cons_False, filter_nil, app_nil_r. }
  split; [done |]. split.
  { apply (extractions_delete_only _ _ _ Hj); [done |]. rewrite Hex. simpl. lia. }
  split.
  { exists (js_or (message e) analysisFailed).
    split; [done | split; [by apply js_or_nonempty | done]]. }
  do 2 (split; [done |]). split; [exact Hocr |].
  do 4 (split; [done |]).
  intros Hclean. destruct Hquiet as (_ & Hn & Hs & Hb & Hf).
  { rewrite Hgo. simpl. apply Forall_app; split; [done | by repeat constructor]. }
  rewrite Hn, Hs, Hb, Hf, Hgo. done.
Qed.

Lemma extraction_failure_aborts_run_witness :
  let before := [PickFiles [Sample.page "p1"]; Settle 0 FilesRead] in
  let during := [ClickTab TabSummary; ClickLanguage] in
  let w0 := run initialWorld before in
  let w := run (step w0 ClickGenerate) during in
  let aborted := step w (Settle 0 (OcrBody (Rejected Sample.unavailable))) in
  filter (λ c, is_derivation_call c = true) (calls aborted)
  = filter (λ c, is_derivation_call c = true) (calls w0)
  ∧ pending aborted = delete 0 (pending w)
  ∧ loadingStates aborted = Loading.allClear
  ∧ ocrResult (state aborted) = None
  ∧ masterNote (state aborted) = None
  ∧ summary (state aborted) = None
  ∧ mcqBatches (state aborted) = []
  ∧ flashcards (state aborted) = [].
Proof.
  intros before during w0 w aborted.
  destruct (extraction_failure_aborts_run before during ClickGenerate 0 (state w0)
              Sample.unavailable)
    as (_ & Hcalls & Hpend & _ & _ & _ & Hflags & Hocr & _ & _ & _ & _ & Hempty).
  - reflexivity.
  - vm_compute. reflexivity.
  - vm_compute. discriminate.
  - repeat constructor.
  - vm_compute. reflexivity.
  - destruct Hempty as (Hn & Hs & Hb & Hf); [vm_compute; constructor |].
    split; [exact Hcalls | split; [exact Hpend | split; [exact Hflags |]]].
    split; [exact Hocr | split; [exact Hn | split; [exact Hs | split; [exact Hb | exact Hf]]]].
Defined.

(** *** The extensions when they fail *)

(** X10: a bonus extension or a batch extension whose call is rejected
    leaves the session state as it was (note, batches, answers, [error]);
    it raises its own alert and clears its own flag. *)
Theorem rejected_extension_changes_nothing (w : World) (i : nat) (e : JsError) :
  (pending w !! i = Some AwaitMoreBonus →
   let w' := step w (Settle i (TextResponse (Rejected e))) in
   state w' = state w
   ∧ activeBatchIndex w' = activeBatchIndex w
   ∧ alerts w' = alerts w ++ ["Failed to generate more bonus content."]
   ∧ Loading.moreBonus (loadingStates w') = false)
  ∧ (∀ snapshot nextBatchNum,
       pending w !! i = Some (AwaitMoreMCQs snapshot nextBatchNum) →
       let w' := step w (Settle i (McqBody (Rejected e))) in
       state w' = state w
       ∧ activeBatchIndex w' = activeBatchIndex w
       ∧ alerts w' = alerts w ++ ["Failed to generate more practice questions."]
       ∧ Loading.morePractice (loadingStates w') = false).
Proof.
  split.
  - intros Hp w'. subst w'. erewrite step_settle; [| exact Hp | reflexivity].
    simpl. repeat split.
  - intros snapshot nextBatchNum Hp w'. subst w'.
    erewrite step_settle; [| exact Hp | reflexivity]. simpl. repeat split.
Qed.

Lemma rejected_extension_changes_nothing_witness :
  let w := Sample.extensionWorld in
  let w' := step w (Settle 3 (McqBody (Rejected Sample.unavailable))) in
  state w' = state w
  ∧ alerts w' = alerts w ++ ["Failed to generate more practice questions."].
Proof.
  intros w w'.
  destruct (rejected_extension_changes_nothing w 3 Sample.unavailable) as [_ H].
  destruct (H Sample.extensionSnapshot 2) as (Hs & _ & Ha & _);
    [vm_compute; reflexivity |].
  split; [exact Hs | exact Ha].
Defined.

(** X11: a bonus extension that completes when the session holds no
    master note (a new run has cleared it) is dropped without a word; one
    that completes with an absent or empty text still appends the blank
    line to [layer3]. *)
Theorem bonus_extension_edge_cases (w : World) (i : nat)
    (response : Settled GenerateContentResponse) (B : string) :
  pending w !! i = Some AwaitMoreBonus →
  generateMoreBonus response = Fulfilled B →
  let w' := step w (Settle i (TextResponse response)) in
  (masterNote (state w) = None → state w' = state w ∧ alerts w' = alerts w)
  ∧ (∀ note, masterNote (state w) = Some note → B = EmptyString →
       ∃ note', masterNote (state w') = Some note'
                ∧ layer3 note' = layer3 note +:+ nl +:+ nl
                ∧ String.length (layer3 note') = (String.length (layer3 note) + 2)%nat)
  ∧ generateMoreBonus (Fulfilled {| text := None |}) = Fulfilled EmptyString.
Proof.
  intros Hp HB w'. subst w'. erewrite step_settle; [| exact Hp | reflexivity].
  unfold handleMoreBonus_resume. rewrite HB. simpl. unfold appendBonus.
  split; [| split; [| done]].
  - intros Hnone. rewrite Hnone. simpl. split; [| done]. by destruct (state w).
  - intros note Hnote ->. rewrite Hnote. simpl. eexists. split; [reflexivity |].
    simpl. split; [done |]. rewrite !length_append. simpl. lia.
Qed.

Lemma bonus_extension_edge_cases_witness :
  let w := set_pending [AwaitMoreBonus]
             (setState (set_masterNote (Some Sample.noteOne)) initialWorld) in
  let w' := step w (Settle 0 (TextResponse (Fulfilled {| text := None |}))) in
  ∃ note', masterNote (state w') = Some note'
           ∧ layer3 note' = layer3 Sample.noteOne +:+ nl +:+ nl.
Proof.
  intros w w'.
  destruct (bonus_extension_edge_cases w 0 (Fulfilled {| text := None |}) EmptyString)
    as (_ & H & _); [reflexivity | reflexivity |].
  destruct (H Sample.noteOne eq_refl eq_refl) as (note' & Hn & Hl & _).
  exists note'. split; [exact Hn | exact Hl].
Defined.

(** *** Clarification *)

(** X12: a clarification request never touches the session state or
    the active batch; when it fails the clarification shown stays as it
    was and an alert is raised; when it succeeds the result is shown even
    if the overlay was closed while the request was in flight (closing
    does not cancel it, and the selection is gone by then). *)
Theorem clarification_flow (w : World) (i : nat) (body : Settled Clarification) :
  pending w !! i = Some AwaitClarify →
  let w' := step w (Settle i (ClarifyBody body)) in
  state w' = state w
  ∧ activeBatchIndex w' = activeBatchIndex w
  ∧ Loading.clarification (loadingStates w') = false
  ∧ (∀ e, body = Rejected e →
       clarification w' = clarification w
       ∧ alerts w' = alerts w ++ ["Clarification failed. Please try again."])
  ∧ (∀ result, body = Fulfilled result →
       clarification w' = Some result ∧ alerts w' = alerts w)
  ∧ (Loading.clarification (loadingStates w) = true →
     let closed := step w ClickCloseClarification in
     pending closed !! i = Some AwaitClarify
     ∧ selection closed = None
     ∧ ∀ result,
         let shown := step closed (Settle i (ClarifyBody (Fulfilled result))) in
         clarification shown = Some result ∧ selection shown = None).
Proof.
  intros Hp w'. subst w'. erewrite step_settle; [| exact Hp | reflexivity].
  unfold handleClarify_resume.
  split; [by destruct body |]. split; [by destruct body |]. split; [by destruct body |].
  split; [by intros e -> |]. split; [by intros result -> |].
  intros Hflag.
  assert (Hclosed : step w ClickCloseClarification = closeClarification w).
  { unfold step. simpl. by rewrite Hflag, orb_true_r. }
  rewrite Hclosed. split; [exact Hp |]. split; [done |].
  intros result.
  erewrite step_settle; [| exact Hp | reflexivity]. done.
Qed.

Lemma clarification_flow_witness :
  let w := step (step initialWorld (MouseUp "noun" (Some "A noun names.") 10 20))
             ClickClarify in
  let closed := step w ClickCloseClarification in
  let shown :=
    step closed (Settle 0 (ClarifyBody (Fulfilled {| definition := "a name";
                                                     fullExplanation := "it names" |}))) in
  pending w !! 0 = Some AwaitClarify
  ∧ clarification shown = Some {| definition := "a name"; fullExplanation := "it names" |}
  ∧ selection shown = None.
Proof.
  intros w closed shown.
  assert (Hp : pending w !! 0 = Some AwaitClarify) by (vm_compute; reflexivity).
  destruct (clarification_flow w 0 (Rejected Sample.unavailable) Hp)
    as (_ & _ & _ & _ & _ & H).
  destruct H as (_ & _ & Hshown); [vm_compute; reflexivity |].
  split; [exact Hp | exact (Hshown _)].
Defined.

(** *** The upload set *)

Lemma filterWithIndex_keeps_later {A} (k from : nat) (l : list A) :
  (k < from)%nat → filterWithIndex (λ _ i, negb (i =? k)%nat) from l = l.
Proof.
  revert from. induction l as [|x l IH]; intros from Hlt; [done |]. simpl.
  rewrite (proj2 (Nat.eqb_neq from k)) by lia. simpl. by rewrite IH by lia.
Qed.

Lemma filterWithIndex_delete {A} (from index : nat) (l : list A) :
  filterWithIndex (λ _ i, negb (i =? from + index)%nat) from l = delete index l.
Proof.
  revert from index. induction l as [|x l IH]; intros from [|index]; simpl; try done.
  - rewrite Nat.add_0_r, Nat.eqb_refl. simpl.
    by rewrite filterWithIndex_keeps_later by lia.
  - rewrite (proj2 (Nat.eqb_neq from (from + S index))) by lia. simpl.
    replace (from + S index)%nat with (S from + index)%nat by lia. by rewrite IH.
Qed.

Lemma delete_out_of_range {A} (index : nat) (l : list A) :
  (length l ≤ index)%nat → delete index l = l.
Proof.
  revert index. induction l as [|x l IH]; intros [|index] Hle; simpl in *; try done;
    [lia | by rewrite IH by lia].
Qed.

(** X13: [removeImage] keeps exactly the images whose position is not
    the given index, in their order: the set loses the image at the index
    when there is one and is unchanged otherwise. *)
Theorem removeImage_removes_one (w : World) (index : nat) :
  let imgs := images (state w) in
  let imgs' := images (state (removeImage index w)) in
  imgs' = filterWithIndex (λ _ i, negb (i =? index)%nat) 0 imgs
  ∧ ((index < length imgs)%nat →
     imgs' = take index imgs ++ drop (S index) imgs
     ∧ S (length imgs') = length imgs)
  ∧ ((length imgs ≤ index)%nat → imgs' = imgs).
Proof.
  intros imgs imgs'. subst imgs'. simpl. fold imgs. split; [| split].
  - by rewrite <- (filterWithIndex_delete 0 index imgs).
  - intros Hlt. split; [apply delete_take_drop |].
    rewrite length_delete by (by apply lookup_lt_is_Some_2). lia.
  - apply delete_out_of_range.
Qed.

Lemma removeImage_removes_one_witness :
  let w := run initialWorld [PickFiles Sample.fivePages; Settle 0 FilesRead] in
  images (state (removeImage 1 w))
  = take 1 (images (state w)) ++ drop 2 (images (state w))
  ∧ images (state (removeImage 7 w)) = images (state w).
Proof.
  intros w.
  destruct (removeImage_removes_one w 1) as (_ & H1 & _).
  destruct (removeImage_removes_one w 7) as (_ & _ & H7).
  split; [apply H1; vm_compute; lia | apply H7; vm_compute; lia].
Defined.

Lemma promiseAll_unreadable (files : list File) :
  Exists (λ f, ¬ readable f) files →
  ∃ e, promiseAll (map readResult files) = Rejected e.
Proof.
  induction 1 as [f files Hf | f files _ [e IH]]; simpl.
  - destruct (readResult f) as [data | e] eqn:Hr; [| by exists e].
    destruct Hf. by exists data.
  - destruct (readResult f); [rewrite IH |]; eauto.
Qed.

Lemma addImages_below_capacity (files : list File) (w : World) :
  uploadView w = true → files ≠ [] → (length (images (state w)) < 5)%nat →
  addImages files w
  = handleFileUpload_resume (take (5 - length (images (state w))) files) w.
Proof.
  intros Hview Hne Hlt. rewrite addImages_unfold, Hview.
  rewrite bool_decide_eq_false_2 by (by destruct files). simpl.
  replace (5 - Z.of_nat (length (images (state w))))%Z
    with (Z.of_nat (5 - length (images (state w)))) by lia.
  rewrite slice0_take, bool_decide_eq_false_2; [done |].
  rewrite length_take. destruct files; [done |]. simpl. lia.
Qed.

(** X14: an add below capacity is all or nothing with respect to
    reading: when one of the files that fit cannot be read, no image is
    added and the alert "Failed to load images." is raised; when all of
    them are read, the add also clears [error]. *)
Theorem add_reads_all_or_nothing (w : World) (files : list File) :
  uploadView w = true → files ≠ [] → (length (images (state w)) < 5)%nat →
  let fit := take (5 - length (images (state w))) files in
  let w' := addImages files w in
  (Exists (λ f, ¬ readable f) fit →
   state w' = state w ∧ alerts w' = alerts w ++ ["Failed to load images."])
  ∧ (Forall readable fit →
     images (state w') = images (state w) ++ map base64 fit
     ∧ error (state w') = None ∧ alerts w' = alerts w).
Proof.
  intros Hview Hne Hlt fit w'. subst w'.
  rewrite (addImages_below_capacity _ _ Hview Hne Hlt). fold fit.
  unfold handleFileUpload_resume. split.
  - intros [e He]%promiseAll_unreadable. by rewrite He.
  - intros Hall. by rewrite (promiseAll_readable _ Hall).
Qed.

Lemma add_reads_all_or_nothing_witness :
  let broken := {| fileName := "torn"; readResult := Rejected Sample.unavailable |} in
  let w' := addImages [Sample.page "p1"; broken] initialWorld in
  state w' = state initialWorld
  ∧ alerts w' = alerts initialWorld ++ ["Failed to load images."].
Proof.
  intros broken w'.
  destruct (add_reads_all_or_nothing initialWorld [Sample.page "p1"; broken])
    as [H _]; [reflexivity | discriminate | simpl; lia |].
  apply H. apply Exists_cons_tl, Exists_cons_hd. intros [data Hd]. discriminate.
Defined.

Lemma lookup_two_awaits_first (l : list Pending) (p q : Pending) :
  (l ++ [p; q]) !! length l = Some p.
Proof. by rewrite lookup_app_r, Nat.sub_diag. Qed.

Lemma delete_two_awaits_first (l : list Pending) (p q : Pending) :
  delete (length l) (l ++ [p; q]) = l ++ [q].
Proof. induction l as [|x l IH]; simpl; [done | by rewrite IH]. Qed.

(** X15: two adds that overlap (the second set of files is picked
    before the first has been read) are both truncated against the size
    the set had before either of them, so that together they can bring
    the set above five images. *)
Theorem overlapping_adds_share_the_count (w : World) (first second : list File) :
  uploadView w = true → first ≠ [] → second ≠ [] →
  (length (images (state w)) < 5)%nat →
  let room := (5 - length (images (state w)))%nat in
  Forall readable (take room first) → Forall readable (take room second) →
  let k := length (pending w) in
  let w' := run w [PickFiles first; PickFiles second; Settle k FilesRead; Settle k FilesRead] in
  images (state w')
  = images (state w) ++ map base64 (take room first) ++ map base64 (take room second)
  ∧ length (images (state w'))
    = (length (images (state w)) + Nat.min room (length first)
       + Nat.min room (length second))%nat.
Proof.
  intros Hview Hf Hs Hlt room Hrf Hrs k w'.
  assert (Hpick : ∀ files v, files ≠ [] → uploadView v = true →
            length (images (state v)) = length (images (state w)) →
            step v (PickFiles files) = await (AwaitFiles (take room files)) v).
  { intros files v Hne Hv Hlen. unfold step. simpl. rewrite Hv.
    unfold handleFileUpload. rewrite Hlen.
    rewrite bool_decide_eq_false_2 by (by destruct files). 
    replace (5 - Z.of_nat (length (images (state w))))%Z with (Z.of_nat room)
      by (subst room; lia).
    rewrite slice0_take, bool_decide_eq_false_2; [done |].
    rewrite length_take. destruct files; [done |]. subst room. simpl. lia. }
  assert (Himg : images (state w')
                 = images (state w) ++ map base64 (take room first)
                   ++ map base64 (take room second)).
  { subst w'. unfold run. simpl.
    rewrite (Hpick first w Hf Hview eq_refl).
    rewrite (Hpick second (await (AwaitFiles (take room first)) w) Hs Hview eq_refl).
    set (both := await (AwaitFiles (take room second))
                   (await (AwaitFiles (take room first)) w)).
    assert (Hboth : pending both
                    = pending w ++ [AwaitFiles (take room first);
                                    AwaitFiles (take room second)]).
    { subst both. simpl. by rewrite <- app_assoc. }
    rewrite (step_settle both k (AwaitFiles (take room first)) FilesRead
               (handleFileUpload_resume (take room first)));
      [| rewrite Hboth; apply lookup_two_awaits_first | reflexivity].
    unfold k. rewrite Hboth, delete_two_awaits_first.
    unfold handleFileUpload_resume. rewrite (promiseAll_readable _ Hrf).
    erewrite step_settle; [| apply lookup_await | reflexivity].
    unfold handleFileUpload_resume. rewrite (promiseAll_readable _ Hrs). simpl.
    by rewrite <- app_assoc. }
  split; [exact Himg |].
  rewrite Himg, !length_app, !length_map, !length_take. lia.
Qed.

Lemma overlapping_adds_share_the_count_witness :
  let three := [Sample.page "a"; Sample.page "b"; Sample.page "c"] in
  let w' := run initialWorld [PickFiles three; PickFiles three; Settle 0 FilesRead;
                              Settle 0 FilesRead] in
  length (images (state w')) = 6.
Proof.
  intros three w'.
  destruct (overlapping_adds_share_the_count initialWorld three three) as [_ H];
    [reflexivity | discriminate | discriminate | simpl; lia
    | repeat constructor; eexists; reflexivity
    | repeat constructor; eexists; reflexivity |].
  exact H.
Defined.

(** *** The practice view *)

Lemma resume_keeps_view (p : Pending) (o : Outcome) (k : World → World) (w : World) :
  resume p o = Some k → batchCallInFlight p = false →
  mcqBatches (state (k w)) = mcqBatches (state w)
  ∧ activeBatchIndex (k w) = activeBatchIndex w
  ∧ currentQuestionIndex (state (k w)) = currentQuestionIndex (state w).
Proof.
  destruct p, o; simpl; try discriminate; intros [= <-] _.
  - unfold handleClarify_resume. by destruct body.
  - unfold handleMoreBonus_resume. destruct response as [r|e]; simpl; [| done].
    unfold appendBonus. by destruct (masterNote (state w)).
  - unfold handleFileUpload_resume. by destruct (promiseAll _).
  - unfold handleGenerate_resume. by destruct body.
  - unfold onMasterNote. by destruct body.
  - unfold onSummary. by destruct response.
  - unfold onFlashcards. by destruct body.
Qed.

Lemma navInv_frame (w w' : World) :
  mcqBatches (state w') = mcqBatches (state w) →
  activeBatchIndex w' = activeBatchIndex w →
  currentQuestionIndex (state w') = currentQuestionIndex (state w) →
  navInv w → navInv w'.
Proof.
  unfold navInv, totalInBatch, currentBatch. intros -> -> ->. done.
Qed.

Lemma first_batch_arrives_on_empty (w : World) (i : nat) :
  batchInv w → pending w !! i = Some AwaitMCQBatch → mcqBatches (state w) = [].
Proof.
  intros Hinv Hp.
  destruct (writers_delete_only _ i _ Hp eq_refl (batchInv_short w Hinv)) as [Honly _].
  destruct (batchInv_cases w Hinv)
    as [H | [(s & H & _) | [[_ Hb] | (s & n & H & _)]]];
    try (rewrite Honly in H; discriminate). exact Hb.
Qed.

Lemma totalInBatch_empty (w : World) : mcqBatches (state w) = [] → totalInBatch w = 0.
Proof. unfold totalInBatch, currentBatch. by intros ->. Qed.

Lemma step_navInv (w : World) (ev : Event) :
  batchInv w → navInv w → navInv (step w ev).
Proof.
  intros Hinv Hnav. unfold step. destruct (enabled w ev) eqn:Hen; [| done].
  destruct ev; simpl; try (apply (navInv_frame w); done).
  - unfold handleMouseUp.
    repeat match goal with |- context [if ?c then _ else _] => destruct c end;
      try destruct anchorText; apply (navInv_frame w); done.
  - unfold handleClarify. destruct (selection w); apply (navInv_frame w); done.
  - unfold handleFileUpload.
    repeat match goal with |- context [if ?c then _ else _] => destruct c end;
      apply (navInv_frame w); done.
  - unfold handleGenerate. destruct (bool_decide _); [done |].
    unfold navInv. simpl. split; [done | split; [done | by left]].
  - unfold handleGenerate. destruct (bool_decide _); [done |].
    unfold navInv. simpl. split; [done | split; [done | by left]].
  - unfold handleMoreBonus.
    destruct (ocrResult (state w)), (masterNote (state w)); apply (navInv_frame w); done.
  - unfold handleGenerateMoreMCQs.
    destruct (ocrResult (state w)); apply (navInv_frame w); done.
  - (* a batch button *)
    simpl in Hen. apply andb_true_iff in Hen as [_ Hi%bool_decide_eq_true].
    unfold navInv. simpl. split; [| split; [done | by left]].
    intros Hnil. rewrite Hnil in Hi. simpl in Hi. lia.
  - destruct (currentQuestion w); apply (navInv_frame w); done.
  - (* previous *)
    simpl in Hen. apply andb_true_iff in Hen as [_ Hne%negb_true_iff].
    apply bool_decide_eq_false in Hne.
    destruct Hnav as (Hempty & Hactive & Hidx).
    unfold navInv, totalInBatch, currentBatch in *. simpl.
    split; [| split; [done |]].
    + intros Hnil. destruct (Hempty Hnil) as [? ?]. lia.
    + destruct Hidx; [done |]. right. lia.
  - (* next *)
    simpl in Hen. apply andb_true_iff in Hen as [_ Hlt%bool_decide_eq_true].
    destruct Hnav as (Hempty & Hactive & Hidx).
    split; [| split; [done |]].
    + intros Hnil. simpl in Hnil. rewrite (totalInBatch_empty w Hnil) in Hlt. lia.
    + right. unfold totalInBatch, currentBatch in *. simpl. lia.
  - (* a call settles *)
    destruct (pending w !! i) as [p|] eqn:Hp; [| done].
    destruct (resume p o) as [k|] eqn:Hk; [| done].
    destruct (batchCallInFlight p) eqn:Hkind.
    + destruct p, o; try discriminate; injection Hk as <-.
      * (* the extension *)
        destruct (extension_snapshot_is_current w Hinv _ _ _ Hp) as [Hlen _].
        unfold handleGenerateMoreMCQs_resume.
        destruct (generateMCQBatch body) as [result | e]; simpl;
          [| by apply (navInv_frame w)].
        destruct (0 <? length (res_questions result))%nat; simpl;
          [| by apply (navInv_frame w)].
        unfold navInv. simpl. rewrite Hlen, length_app. simpl.
        split; [| split; [intros _; lia | by left]].
        intros Hnil. by destruct (mcqBatches (state w)).
      * (* the first batch *)
        pose proof (first_batch_arrives_on_empty w i Hinv Hp) as Hnil.
        pose proof Hnav as (Hempty & _ & _). destruct (Hempty Hnil) as [Hact Hidx].
        unfold onMCQBatch.
        destruct (generateMCQBatch body) as [result | e]; simpl;
          [| by apply (navInv_frame w)].
        unfold navInv. simpl. rewrite Hact, Hidx.
        split; [done | split; [intros _; lia | by left]].
    + destruct (resume_keeps_view p o k (set_pending (delete i (pending w)) w) Hk Hkind)
        as (Hb & Ha & Hi).
      by apply (navInv_frame w).
Qed.

Lemma run_navInv (trace : list Event) (w : World) :
  batchInv w → navInv w → runsDoNotOverlap w trace = true → navInv (run w trace).
Proof.
  revert w. induction trace as [|ev trace IH]; intros w Hinv Hnav Hok; [done |].
  simpl in Hok. apply andb_true_iff in Hok as [Hev Hrest].
  unfold run. simpl. apply IH; [| by apply step_navInv | done].
  by apply step_batchInv.
Qed.

(** X16: in every state of a session in which no run is started while
    a batch-producing call is in flight, the practice view designates an
    existing batch as soon as there is one, and the question index is 0
    or the index of a question of that batch; with no batch both indices
    are 0. *)
Theorem practice_view_stays_in_range (trace : list Event) :
  runsDoNotOverlap initialWorld trace = true →
  let w := run initialWorld trace in
  (mcqBatches (state w) ≠ [] → is_Some (currentBatch w))
  ∧ (currentQuestionIndex (state w) = 0
     ∨ is_Some (currentQuestion w))
  ∧ (mcqBatches (state w) = [] →
     activeBatchIndex w = 0 ∧ currentQuestionIndex (state w) = 0).
Proof.
  intros Hok w.
  assert (Hnav : navInv w).
  { apply run_navInv; [apply initial_batchInv | | done].
    split; [done | split; [done | by left]]. }
  destruct Hnav as (Hempty & Hactive & Hidx).
  split; [| split; [| done]].
  - intros Hne. apply lookup_lt_is_Some_2. by apply Hactive.
  - destruct Hidx as [? | Hlt]; [by left | right].
    unfold totalInBatch, currentQuestion in *.
    destruct (currentBatch w); [by apply lookup_lt_is_Some_2 | simpl in Hlt; lia].
Qed.

Lemma practice_view_stays_in_range_witness :
  let w := run initialWorld (Sample.extensionRequested
                             ++ [Settle 3 (McqBody (Fulfilled (Sample.mcq [Sample.ask 2 "q2"])))]) in
  mcqBatches (state w) ≠ [] ∧ is_Some (currentBatch w).
Proof.
  intros w.
  destruct (practice_view_stays_in_range
              (Sample.extensionRequested
               ++ [Settle 3 (McqBody (Fulfilled (Sample.mcq [Sample.ask 2 "q2"])))]))
    as (H & _); [vm_compute; reflexivity |].
  assert (Hne : mcqBatches (state w) ≠ []) by (vm_compute; discriminate).
  split; [exact Hne | exact (H Hne)].
Defined.

(** X17: switching to another batch keeps the recorded answers and
    goes to its first question; answers are looked up by question id
    alone, so a question of the batch switched to whose id already has a
    recorded answer is shown as answered and takes no answer. *)
Theorem answers_follow_the_id (w : World) (i : nat) (recorded attempt : OptionKey) :
  enabled w (ClickBatch i) = true →
  let w' := step w (ClickBatch i) in
  userAnswers (state w') = userAnswers (state w)
  ∧ activeBatchIndex w' = i
  ∧ currentQuestionIndex (state w') = 0
  ∧ (∀ q, currentQuestion w' = Some q →
          userAnswers (state w) !! q_id q = Some (key_string recorded) →
          step w' (ClickOption attempt) = w').
Proof.
  intros Hen w'.
  assert (Hstep : w' = setState (set_currentQuestionIndex 0) (setActiveBatchIndex i w)).
  { subst w'. unfold step. by rewrite Hen. }
  rewrite Hstep. clear Hstep w'.
  do 3 (split; [done |]). intros q Hq Hrec.
  unfold step. cbn [enabled fire]. rewrite Hq. unfold answered.
  cbn [state setState set_currentQuestionIndex userAnswers].
  change (userAnswers (state (setActiveBatchIndex i w))) with (userAnswers (state w)).
  by rewrite Hrec, key_string_truthy, andb_false_r.
Qed.

Lemma answers_follow_the_id_witness :
  let w := run initialWorld
             (Sample.extensionRequested
              ++ [ Settle 3 (McqBody (Fulfilled (Sample.mcq [Sample.ask 1 "again"])));
                   ClickOption KeyC ]) in
  let w' := step w (ClickBatch 0) in
  currentQuestion w' = Some (Sample.ask 1 "q1")
  ∧ step w' (ClickOption KeyA) = w'.
Proof.
  intros w w'.
  destruct (answers_follow_the_id w 0 KeyC KeyA) as (_ & _ & _ & H);
    [vm_compute; reflexivity |].
  assert (Hq : currentQuestion w' = Some (Sample.ask 1 "q1")) by (vm_compute; reflexivity).
  split; [exact Hq |]. apply (H _ Hq). vm_compute; reflexivity.
Defined.

(** X18: unlike an extension, the first MCQ call of a run stores its
    batch even when it holds no question (a payload without [questions]
    counts as such): the session then has batch 1 with an empty list, no
    question on screen, no option to click and no "Next". *)
Theorem empty_first_batch_is_stored (w : World) (i : nat) (body : Settled McqData)
    (result : McqResult) :
  pending w !! i = Some AwaitMCQBatch →
  generateMCQBatch body = Fulfilled result →
  res_questions result = [] →
  activeBatchIndex w = 0 →
  let w' := step w (Settle i (McqBody body)) in
  mcqBatches (state w') = [firstBatch result]
  ∧ batchNumbers w' = [1]
  ∧ totalInBatch w' = 0
  ∧ currentQuestion w' = None
  ∧ (∀ key, enabled w' (ClickOption key) = false)
  ∧ enabled w' ClickNext = false.
Proof.
  intros Hp Hres Hq Hact w'.
  set (v := setLoadingStates (Loading.set_practice false)
              (setState (set_mcqBatches [firstBatch result])
                 (set_pending (delete i (pending w)) w))).
  assert (Hstep : w' = v).
  { subst w' v. erewrite step_settle; [| exact Hp | reflexivity].
    unfold onMCQBatch. by rewrite Hres. }
  rewrite Hstep. clear Hstep w'.
  assert (Hcur : currentBatch v = Some (firstBatch result)).
  { unfold currentBatch. subst v. cbn. by rewrite Hact. }
  assert (Htot : totalInBatch v = 0).
  { unfold totalInBatch. rewrite Hcur. unfold firstBatch. cbn. by rewrite Hq. }
  assert (Hnone : currentQuestion v = None).
  { unfold currentQuestion. rewrite Hcur. unfold firstBatch. cbn. by rewrite Hq. }
  split; [done |]. split; [done |]. split; [exact Htot |]. split; [exact Hnone |].
  split.
  - intros key. cbn [enabled]. rewrite Hnone. by rewrite andb_false_r.
  - cbn [enabled]. rewrite Htot.
    rewrite bool_decide_eq_false_2 by lia. by rewrite andb_false_r.
Qed.

Lemma empty_first_batch_is_stored_witness :
  let w := run initialWorld Sample.firstRunExtracted in
  let w' := step w (Settle 2 (McqBody (Fulfilled (Sample.mcq [])))) in
  batchNumbers w' = [1] ∧ currentQuestion w' = None.
Proof.
  intros w w'.
  destruct (empty_first_batch_is_stored w 2 (Fulfilled (Sample.mcq []))
              {| res_questions := []; res_coverageReport := defaultCoverageReport |})
    as (_ & Hn & _ & Hc & _);
    [vm_compute; reflexivity | reflexivity | reflexivity | reflexivity |].
  split; [exact Hn | exact Hc].
Defined.

Lemma writers_unique (l : list Pending) (i j : nat) (p q : Pending) :
  (length (writers l) ≤ 1)%nat →
  l !! i = Some p → l !! j = Some q →
  batchWriter p = true → batchWriter q = true → i = j.
Proof.
  intros Hlen Hp Hq Hwp Hwq.
  destruct (decide (i = j)) as [| Hne]; [done | exfalso].
  destruct (writers_delete_only l i p Hp Hwp Hlen) as [_ Hgone].
  assert (Hin : q ∈ delete i l).
  { destruct (decide (j < i)%nat) as [Hlt | Hge].
    - apply (list_elem_of_lookup_2 _ j). by rewrite list_lookup_delete_lt.
    - apply (list_elem_of_lookup_2 _ (j - 1)).
      rewrite list_lookup_delete_ge by lia. by replace (S (j - 1)) with j by lia. }
  assert (Hw : q ∈ writers (delete i l)) by (by apply list_elem_of_filter).
  rewrite Hgone in Hw. by apply elem_of_nil in Hw.
Qed.

(** X19: in every state of a session in which no run is started while a
    batch-producing call is in flight, at most one such call (the first
    batch of the run or one extension) is in flight; while an extension
    is, the "+ 50 MORE" button does nothing. *)
Theorem one_batch_call_in_flight (trace : list Event) (i j : nat) (p q : Pending) :
  runsDoNotOverlap initialWorld trace = true →
  let w := run initialWorld trace in
  pending w !! i = Some p → batchCallInFlight p = true →
  (pending w !! j = Some q → batchCallInFlight q = true → i = j)
  ∧ ((∃ snapshot n, p = AwaitMoreMCQs snapshot n) → step w ClickMoreMCQs = w).
Proof.
  intros Hok w Hp Hkind.
  pose proof (run_batchInv trace initialWorld initial_batchInv Hok) as Hinv. fold w in Hinv.
  assert (Hwp : batchWriter p = true) by (by destruct p).
  split.
  - intros Hq Hkq. apply (writers_unique (pending w) i j p q); try done.
    + by apply batchInv_short.
    + by destruct q.
  - intros (snapshot & n & ->).
    destruct (writers_delete_only _ i _ Hp Hwp (batchInv_short w Hinv)) as [Honly _].
    destruct (batchInv_cases w Hinv)
      as [H | [(s & H & _) | [[H _] | (s & m & H & _ & _ & Hflag)]]];
      rewrite Honly in H; try discriminate.
    unfold step. simpl. by rewrite Hflag, andb_false_r.
Qed.

Lemma one_batch_call_in_flight_witness :
  let w := run initialWorld Sample.extensionRequested in
  pending w !! 3 = Some (AwaitMoreMCQs Sample.extensionSnapshot 2)
  ∧ step w ClickMoreMCQs = w.
Proof.
  intros w.
  assert (Hp : pending w !! 3 = Some (AwaitMoreMCQs Sample.extensionSnapshot 2))
    by (vm_compute; reflexivity).
  destruct (one_batch_call_in_flight Sample.extensionRequested 3 3
              (AwaitMoreMCQs Sample.extensionSnapshot 2)
              (AwaitMoreMCQs Sample.extensionSnapshot 2)) as [_ H];
    [vm_compute; reflexivity | exact Hp | reflexivity |].
  split; [exact Hp | apply H; eauto].
Defined.
